(** * Model pricing and request retry of code-switch

    A shallow embedding of [resources/model-pricing/price.go] (package
    [modelpricing]) and of the retry wrapper of package [services],
    together with the properties stated about them.

    Conventions of the embedding:
    - Go [int] is the 64-bit two's-complement integer, carried as [Z] with
      the wrap-around of every operation written out ([GoInt]);
    - Go [float64] is the primitive binary64 [float]; literals are the
      nearest binary64 value, as Go's constant conversion gives. Go lets
      a compiler fuse a product into the addition that consumes it
      ([x*y + z] rounded once, as on arm64 and with GOAMD64=v3), so each
      addition of the program that takes a product is rounded as the
      compiler decided, and that decision is a parameter ([GoFloat]);
    - Go [string] is a byte string ([string] of [ascii] bytes);
    - a Go [map] is a [gmap]; the order in which a [range] loop visits a
      map is not fixed by the language and may change from one loop to
      the next, so every function that ranges over a map takes the
      visiting order of that loop as an argument;
    - a pointer that may be [nil] is an [option];
    - [strings.ToLower] and [json.Unmarshal] belong to the Go library and
      are parameters of the development; [GoStrings.ascii_ToLower] is the
      former on ASCII strings and serves on concrete inputs. *)

From Stdlib Require Import ZArith Floats Ascii String DecimalString.
From stdpp Require Import gmap strings list.

Set Warnings "-inexact-float".
Local Open Scope Z_scope.

(** ** Go integers *)

Module GoInt.

Definition min_int : Z := - 2 ^ 63.
Definition max_int : Z := 2 ^ 63 - 1.

Definition in_range (z : Z) : Prop := min_int <= z <= max_int.

(** Two's-complement wrap-around of a mathematical result. *)
Definition wrap (z : Z) : Z := (z + 2 ^ 63) mod 2 ^ 64 - 2 ^ 63.

Definition add (a b : Z) : Z := wrap (a + b).
Definition sub (a b : Z) : Z := wrap (a - b).

(** The conversion [float64(n)]: the nearest binary64, ties to even. *)
Definition to_float64 (z : Z) : float :=
  SF2Prim (binary_normalize prec emax z 0 false).

End GoInt.

(** ** Go floating point: fused operations *)

Module GoFloat.

(** The fused multiply-add [x*y + z] of binary64 (IEEE 754
    fusedMultiplyAdd, Go's [math.FMA]): the exact product is added to
    [z] and the result is rounded once, to nearest with ties to even. *)
Definition SFfma (x y z : spec_float) : spec_float :=
  match x, y with
  | S754_finite sx mx ex, S754_finite sy my ey =>
      let sp := xorb sx sy in
      let mp := (mx * my)%positive in
      let ep := ex + ey in
      match z with
      | S754_nan => S754_nan
      | S754_infinity _ => z
      | S754_zero _ => binary_round prec emax sp mp ep
      | S754_finite sz mz ez =>
          let e := Z.min ep ez in
          binary_normalize prec emax
            (cond_Zopp sp (Zpos (fst (shl_align mp ep e)))
             + cond_Zopp sz (Zpos (fst (shl_align mz ez e))))
            e false
      end
  | _, _ => SFadd prec emax (SFmul prec emax x y) z
  end.

Definition FMA (x y z : float) : float :=
  SF2Prim (SFfma (Prim2SF x) (Prim2SF y) (Prim2SF z)).

(** What a compiler may do with an addition [x1*y1 + x2*y2] of two
    products: round the three operations on their own, or fuse the left
    or the right product into the addition. *)
Inductive Fuse := Separate | FuseLeft | FuseRight.

Definition add_products (f : Fuse) (x1 y1 x2 y2 : float) : float :=
  match f with
  | Separate => (x1 * y1 + x2 * y2)%float
  | FuseLeft => FMA x1 y1 (x2 * y2)%float
  | FuseRight => FMA x2 y2 (x1 * y1)%float
  end.

(** An addition [z + x*y] whose right operand is a product. *)
Definition add_product (fused : bool) (z x y : float) : float :=
  if fused then FMA x y z else (z + x * y)%float.

(** The decisions of the compiler for the additions of [CalculateCost]
    that take a product: the sum of price.go:190, and in the sum of
    price.go:192 the addition of the input and output costs and the
    addition of the cache-read cost. They are fixed when the program is
    built. *)
Record Fusion := mkFusion {
  fuseCacheCreateCost : Fuse;
  fuseInputOutputCost : Fuse;
  fuseCacheReadCost : bool;
}.

(** Every operation rounded on its own, as on amd64 with GOAMD64=v1. *)
Definition unfused : Fusion := mkFusion Separate Separate false.

End GoFloat.

(** ** Go byte strings: the functions of package [strings] that are used *)

Module GoStrings.

Fixpoint HasPrefix (s prefix : string) {struct prefix} : bool :=
  match prefix with
  | EmptyString => true
  | String p prefix' =>
      match s with
      | EmptyString => false
      | String c s' => Ascii.eqb c p && HasPrefix s' prefix'
      end
  end.

Fixpoint Contains (s substr : string) {struct s} : bool :=
  HasPrefix s substr ||
  match s with
  | EmptyString => false
  | String _ s' => Contains s' substr
  end.

(** The slice [s[n:]] for [n <= len(s)]; Go panics beyond the length,
    where this function gives the empty string. *)
Fixpoint slice_from (n : nat) (s : string) : string :=
  match n, s with
  | O, _ => s
  | S n', String _ s' => slice_from n' s'
  | S _, EmptyString => EmptyString
  end.

Definition TrimPrefix (s prefix : string) : string :=
  if HasPrefix s prefix then slice_from (String.length prefix) s else s.

(** A [strings.Replacer] all of whose old strings are single bytes: every
    byte is replaced by the new string of the first pair that names it. *)
Fixpoint replacement (table : list (ascii * string)) (c : ascii) : option string :=
  match table with
  | [] => None
  | (old, new) :: table' =>
      if Ascii.eqb c old then Some new else replacement table' c
  end.

Fixpoint Replace (table : list (ascii * string)) (s : string) : string :=
  match s with
  | EmptyString => EmptyString
  | String c s' =>
      match replacement table c with
      | Some new => new +:+ Replace table s'
      | None => String c (Replace table s')
      end
  end.

(** [strings.ToLower] on a string of ASCII bytes: the letters [A]-[Z]
    are mapped to [a]-[z], every other byte is kept. *)
Definition lower_byte (c : ascii) : ascii :=
  let n := Ascii.N_of_ascii c in
  if ((65 <=? n) && (n <=? 90))%N then Ascii.ascii_of_N (n + 32) else c.

Fixpoint ascii_ToLower (s : string) : string :=
  match s with
  | EmptyString => EmptyString
  | String c s' => String (lower_byte c) (ascii_ToLower s')
  end.

End GoStrings.

Import GoStrings.

(** ** Ranging over a Go map *)

(** The pairs a [range] loop over [m] yields when it visits the keys in
    the order [ord]. *)
Definition go_range {V} (m : gmap string V) (ord : list string) : list (string * V) :=
  omap (fun k => pair k <$> m !! k) ord.

(** [ord] is an order in which a [range] loop may visit [m]: every key
    of the map once. *)
Definition range_order {V} (m : gmap string V) (ord : list string) : Prop :=
  NoDup ord /\ forall k, k ∈ ord <-> is_Some (m !! k).

Definition range_orderb {V} (m : gmap string V) (ord : list string) : bool :=
  bool_decide (NoDup ord) && bool_decide (list_to_set ord = dom m).

(** ** Data model of package [modelpricing] *)

Record PricingEntry := mkPricingEntry {
  InputCostPerToken : float;
  OutputCostPerToken : float;
  CacheCreationInputTokenCost : float;
  CacheCreationInputTokenCostAbove1Hr : float;
  CacheCreationInputTokenCostAbove200 : float;
  CacheReadInputTokenCost : float;
  InputCostPerTokenAbove200k : float;
  InputCostPerTokenAbove128k : float;
  OutputCostPerTokenAbove200k : float
}.

Record CacheCreationDetail := mkCacheCreationDetail {
  Ephemeral5mTokens : Z;
  Ephemeral1hTokens : Z
}.

Record UsageSnapshot := mkUsageSnapshot {
  InputTokens : Z;
  OutputTokens : Z;
  CacheCreateTokens : Z;
  CacheReadTokens : Z;
  CacheCreation : option CacheCreationDetail
}.

Record CostBreakdown := mkCostBreakdown {
  InputCost : float;
  OutputCost : float;
  CacheCreateCost : float;
  CacheReadCost : float;
  Ephemeral5mCost : float;
  Ephemeral1hCost : float;
  TotalCost : float;
  HasPricing : bool;
  IsLongContext : bool
}.

Record LongContextPricing := mkLongContextPricing {
  Input : float;
  Output : float
}.

Record Service := mkService {
  pricingMap : gmap string PricingEntry;
  normalized : gmap string string;
  ephemeral1h : gmap string float;
  longContexts : gmap string LongContextPricing
}.

(** The zero values [PricingEntry{}], [CostBreakdown{}] and
    [LongContextPricing{}]. *)
Definition zeroPricingEntry : PricingEntry :=
  mkPricingEntry 0 0 0 0 0 0 0 0 0.

Definition zeroCostBreakdown : CostBreakdown :=
  mkCostBreakdown 0 0 0 0 0 0 0 false false.

Definition zeroLongContextPricing : LongContextPricing :=
  mkLongContextPricing 0 0.


(** ** The pricing service *)

Section Program.

(** [strings.ToLower] of the Go library, and [json.Unmarshal] into a
    [map[string]PricingEntry] ([None] when it reports an error). *)
Context (ToLower : string -> string).
Context (json_Unmarshal : string -> option (gmap string PricingEntry)).

(** The fusions of floating-point operations in the compiled program. *)
Context (fusion : GoFloat.Fusion).

(** [nameReplacer = strings.NewReplacer("-", "", "_", "", ".", "", ":", "", "/", "", " ", "")] *)
Definition nameReplacer : list (ascii * string) :=
  [("-"%char, EmptyString); ("_"%char, EmptyString); ("."%char, EmptyString);
   (":"%char, EmptyString); ("/"%char, EmptyString); (" "%char, EmptyString)].

Definition normalizeName (name : string) : string :=
  Replace nameReplacer (ToLower name).

Fixpoint stripRegionPrefix_loop (prefixes : list string) (name : string) : string :=
  match prefixes with
  | [] => name
  | prefix :: prefixes' =>
      if HasPrefix (ToLower name) prefix
      then slice_from (String.length prefix) name
      else stripRegionPrefix_loop prefixes' name
  end.

Definition stripRegionPrefix (name : string) : string :=
  stripRegionPrefix_loop ["us."; "eu."; "apac."]%string name.

Definition ensureCachePricing (entry : PricingEntry) : PricingEntry :=
  let creation :=
    if PrimFloat.eqb (CacheCreationInputTokenCost entry) 0
       && PrimFloat.ltb 0 (InputCostPerToken entry)
    then (InputCostPerToken entry * 1.25)%float
    else CacheCreationInputTokenCost entry in
  let read :=
    if PrimFloat.eqb (CacheReadInputTokenCost entry) 0
       && PrimFloat.ltb 0 (InputCostPerToken entry)
    then (InputCostPerToken entry * 0.1)%float
    else CacheReadInputTokenCost entry in
  mkPricingEntry
    (InputCostPerToken entry) (OutputCostPerToken entry)
    creation
    (CacheCreationInputTokenCostAbove1Hr entry)
    (CacheCreationInputTokenCostAbove200 entry)
    read
    (InputCostPerTokenAbove200k entry)
    (InputCostPerTokenAbove128k entry)
    (OutputCostPerTokenAbove200k entry).

Definition buildEphemeral1hPricing : gmap string float :=
  list_to_map
    [("claude-opus-4-1"%string, 0.00003%float);
     ("claude-opus-4-1-20250805"%string, 0.00003%float);
     ("claude-opus-4"%string, 0.00003%float);
     ("claude-opus-4-20250514"%string, 0.00003%float);
     ("claude-opus-4-5-20251101"%string, 0.00003%float);
     ("claude-3-opus"%string, 0.00003%float);
     ("claude-3-opus-latest"%string, 0.00003%float);
     ("claude-3-opus-20240229"%string, 0.00003%float);
     ("claude-3-5-sonnet"%string, 0.000006%float);
     ("claude-3-5-sonnet-latest"%string, 0.000006%float);
     ("claude-3-5-sonnet-20241022"%string, 0.000006%float);
     ("claude-3-5-sonnet-20240620"%string, 0.000006%float);
     ("claude-3-sonnet"%string, 0.000006%float);
     ("claude-3-sonnet-20240307"%string, 0.000006%float);
     ("claude-sonnet-3"%string, 0.000006%float);
     ("claude-sonnet-3-5"%string, 0.000006%float);
     ("claude-sonnet-3-7"%string, 0.000006%float);
     ("claude-sonnet-4"%string, 0.000006%float);
     ("claude-sonnet-4-20250514"%string, 0.000006%float);
     ("claude-3-5-haiku"%string, 0.0000016%float);
     ("claude-3-5-haiku-latest"%string, 0.0000016%float);
     ("claude-3-5-haiku-20241022"%string, 0.0000016%float);
     ("claude-3-haiku"%string, 0.0000016%float);
     ("claude-3-haiku-20240307"%string, 0.0000016%float);
     ("claude-haiku-3"%string, 0.0000016%float);
     ("claude-haiku-3-5"%string, 0.0000016%float)].

Definition buildLongContextPricing : gmap string LongContextPricing :=
  {[ "claude-sonnet-4-20250514[1m]"%string :=
       mkLongContextPricing 0.000006 0.0000225 ]}.

(** One turn of the loop of [NewServiceFromData], on the key [key] of
    [raw]: the entry is stored with its cache prices ensured, and the
    normalized name is mapped to [key] unless it is mapped already. *)
Definition NewServiceFromData_step (raw : gmap string PricingEntry)
    (acc : gmap string PricingEntry * gmap string string) (key : string)
    : gmap string PricingEntry * gmap string string :=
  match raw !! key with
  | None => acc
  | Some entry =>
      let item := ensureCachePricing entry in
      let pricing := <[key := item]> (fst acc) in
      let norm := normalizeName key in
      match snd acc !! norm with
      | Some _ => (pricing, snd acc)
      | None => (pricing, <[norm := key]> (snd acc))
      end
  end.

(** [NewServiceFromData data], its loop ranging over [raw] in the order
    [ord]; [None] is the error of a failed parse. *)
Definition NewServiceFromData (ord : list string) (data : string) : option Service :=
  match json_Unmarshal data with
  | None => None
  | Some raw =>
      let '(pricing, normalized) :=
        foldl (NewServiceFromData_step raw) (∅, ∅) ord in
      Some (mkService pricing normalized
              buildEphemeral1hPricing buildLongContextPricing)
  end.

(** The scan that ends [getPricing]: the first pair of the range whose
    normalized key contains the target or is contained in it. *)
Fixpoint getPricing_scan (pairs : list (string * PricingEntry))
    (normalizedTarget : string) : option PricingEntry * bool :=
  match pairs with
  | [] => (None, false)
  | (key, entry) :: pairs' =>
      let normKey := normalizeName key in
      if Contains normKey normalizedTarget || Contains normalizedTarget normKey
      then (Some entry, true)
      else getPricing_scan pairs' normalizedTarget
  end.

(** [s.getPricing(model)]; [ord] is the order of its range over
    [s.pricingMap]. *)
Definition getPricing (s : Service) (ord : list string) (model : string)
    : option PricingEntry * bool :=
  if String.eqb model "" then (None, false) else
  match pricingMap s !! model with
  | Some entry => (Some entry, true)
  | None =>
  match (if String.eqb model "gpt-5-codex" then pricingMap s !! "gpt-5"%string else None) with
  | Some entry => (Some entry, true)
  | None =>
  let withoutRegion := stripRegionPrefix model in
  match pricingMap s !! withoutRegion with
  | Some entry => (Some entry, true)
  | None =>
  let withoutProvider := TrimPrefix withoutRegion "anthropic." in
  match pricingMap s !! withoutProvider with
  | Some entry => (Some entry, true)
  | None =>
  let normalizedTarget := normalizeName model in
  match normalized s !! normalizedTarget with
  | Some key => (pricingMap s !! key, true)
  | None => getPricing_scan (go_range (pricingMap s) ord) normalizedTarget
  end end end end end.

Definition totalInput (usage : UsageSnapshot) : Z :=
  GoInt.add (GoInt.add (InputTokens usage) (CacheCreateTokens usage))
            (CacheReadTokens usage).

(** [s.longContextTier(model, usage)]; [ord] is the order of its range
    over [s.longContexts]. *)
Definition longContextTier (s : Service) (ord : list string) (model : string)
    (usage : UsageSnapshot) : LongContextPricing * bool :=
  if Contains (ToLower model) "[1m]"
     && (200000 <? totalInput usage)
     && (0 <? size (longContexts s))%nat
  then
    match longContexts s !! model with
    | Some tier => (tier, true)
    | None =>
        match go_range (longContexts s) ord with
        | (_, tier) :: _ => (tier, true)
        | [] => (zeroLongContextPricing, false)
        end
    end
  else (zeroLongContextPricing, false).

Definition getEphemeral1hPricing (s : Service) (model : string) : float :=
  match ephemeral1h s !! model with
  | Some price => price
  | None =>
      let name := ToLower model in
      if Contains name "opus" then 0.00003%float
      else if Contains name "sonnet" then 0.000006%float
      else if Contains name "haiku" then 0.0000016%float
      else 0%float
  end.

Definition resolveCacheTokens (usage : UsageSnapshot) : Z * Z :=
  match CacheCreation usage with
  | None => (CacheCreateTokens usage, 0)
  | Some detail =>
      let five := Ephemeral5mTokens detail in
      let one := Ephemeral1hTokens detail in
      let remaining := GoInt.sub (GoInt.sub (CacheCreateTokens usage) five) one in
      let five := if 0 <? remaining then GoInt.add five remaining else five in
      let five := if five <? 0 then 0 else five in
      let one := if one <? 0 then 0 else one in
      (five, one)
  end.

(** [s.CalculateCost(model, usage)] on the receiver [s], which may be
    [nil]; [ordP] and [ordL] are the orders of the ranges over
    [s.pricingMap] and [s.longContexts]. The five costs are products,
    each stored rounded; the sums of price.go:190 and price.go:192
    consume products and are rounded as [fusion] says. *)
Definition CalculateCost (s : option Service) (ordP ordL : list string)
    (model : string) (usage : UsageSnapshot) : CostBreakdown :=
  match s with
  | None => zeroCostBreakdown
  | Some s =>
    if String.eqb model "" then zeroCostBreakdown else
    let '(entry, hasPricing) := getPricing s ordP model in
    if bool_decide (entry = None) && negb (Contains (ToLower model) "[1m]")
    then mkCostBreakdown 0 0 0 0 0 0 0 hasPricing false
    else
      let '(longTier, useLong) := longContextTier s ordL model usage in
      let entry := default zeroPricingEntry entry in
      let inputCost :=
        if useLong
        then (GoInt.to_float64 (InputTokens usage) * Input longTier)%float
        else (GoInt.to_float64 (InputTokens usage) * InputCostPerToken entry)%float in
      let outputCost :=
        if useLong
        then (GoInt.to_float64 (OutputTokens usage) * Output longTier)%float
        else (GoInt.to_float64 (OutputTokens usage) * OutputCostPerToken entry)%float in
      let '(cacheCreateTokens, cache1hTokens) := resolveCacheTokens usage in
      let cache5mCost :=
        (GoInt.to_float64 cacheCreateTokens * CacheCreationInputTokenCost entry)%float in
      let cache1hCost :=
        (GoInt.to_float64 cache1hTokens * getEphemeral1hPricing s model)%float in
      let cacheCreateCost :=
        GoFloat.add_products (GoFloat.fuseCacheCreateCost fusion)
          (GoInt.to_float64 cacheCreateTokens) (CacheCreationInputTokenCost entry)
          (GoInt.to_float64 cache1hTokens) (getEphemeral1hPricing s model) in
      let cacheReadCost :=
        (GoInt.to_float64 (CacheReadTokens usage) * CacheReadInputTokenCost entry)%float in
      let inputOutputCost :=
        if useLong
        then GoFloat.add_products (GoFloat.fuseInputOutputCost fusion)
               (GoInt.to_float64 (InputTokens usage)) (Input longTier)
               (GoInt.to_float64 (OutputTokens usage)) (Output longTier)
        else GoFloat.add_products (GoFloat.fuseInputOutputCost fusion)
               (GoInt.to_float64 (InputTokens usage)) (InputCostPerToken entry)
               (GoInt.to_float64 (OutputTokens usage)) (OutputCostPerToken entry) in
      let totalCost :=
        GoFloat.add_product (GoFloat.fuseCacheReadCost fusion)
          (inputOutputCost + cacheCreateCost)%float
          (GoInt.to_float64 (CacheReadTokens usage)) (CacheReadInputTokenCost entry) in
      mkCostBreakdown inputCost outputCost cacheCreateCost cacheReadCost
        cache5mCost cache1hCost totalCost
        (if PrimFloat.ltb 0 totalCost then true else hasPricing)
        useLong
  end.

(** ** The retry wrapper of package [services] *)

Definition MaxRetryAttempts : nat := 3.

(** [RetryInterval = 2 * time.Second], a [time.Duration] in nanoseconds. *)
Definition RetryInterval : Z := 2 * 1000000000.

Inductive RetryErrorType :=
| RateLimitError
| NetworkError
| ServerError
| UnknownError.

(** What the wrapper reads of an [xrequest.Response]: [StatusCode()],
    [Header().Get(name)] and [Bytes()]. *)
Record Response := mkResponse {
  StatusCode : Z;
  HeaderGet : string -> string;
  Bytes : string
}.

(** A [(response, error)] pair; the error is carried by its text. *)
Definition Outcome : Type := option Response * option string.

Definition IsRateLimitError (resp : option Response) : bool :=
  match resp with
  | None => false
  | Some resp =>
      if negb (StatusCode resp =? 200) then false
      else if negb (Contains (ToLower (HeaderGet resp "Content-Type")) "text/event-stream")
      then false
      else Contains (Bytes resp) "Rate limit error, please wait before trying again"
  end.

Definition networkErrorPatterns : list string :=
  ["timeout"; "connection refused"; "connection reset"; "no such host";
   "network is unreachable"; "context deadline exceeded"]%string.

Definition IsNetworkError (err : option string) : bool :=
  match err with
  | None => false
  | Some text =>
      let errStr := ToLower text in
      existsb (fun pattern => Contains errStr pattern) networkErrorPatterns
  end.

Definition IsServerError (resp : option Response) : bool :=
  match resp with
  | None => false
  | Some resp =>
      let status := StatusCode resp in
      (status =? 502) || (status =? 503) || (status =? 504)
  end.

Definition ShouldRetry (resp : option Response) (err : option string)
    : bool * RetryErrorType :=
  if IsNetworkError err then (true, NetworkError)
  else
    match resp with
    | Some _ =>
        if IsRateLimitError resp then (true, RateLimitError)
        else if IsServerError resp then (true, ServerError)
        else (false, UnknownError)
    | None => (false, UnknownError)
    end.

(** The effects of [RetryableRequest]: it calls the request function,
    which acts on a world [W], it sleeps, and it prints log lines. *)
Context {W : Type}.

Inductive LogLine :=
| LogFirstFailed (providerName : string) (errorType : RetryErrorType)
| LogWait (providerName : string) (interval : Z) (attempt : Z)
| LogRetryOk (providerName : string) (attempt : Z)
| LogRetryFailed (providerName : string) (attempt : Z) (errorType : RetryErrorType)
| LogAllFailed (providerName : string) (attempts : nat) (errorType : RetryErrorType).

Inductive Event :=
| EvRequest
| EvSleep (duration : Z)
| EvPrintf (line : LogLine).

(** A state monad over the world and the trace of events so far (the
    latest event last). *)
Definition Eff (A : Type) : Type := W * list Event -> A * (W * list Event).

Definition ret {A} (a : A) : Eff A := fun st => (a, st).

Definition bind {A B} (m : Eff A) (k : A -> Eff B) : Eff B :=
  fun st => let '(a, st') := m st in k a st'.

Definition emit (e : Event) : Eff unit :=
  fun st => (tt, (fst st, snd st ++ [e])).

Definition RetryableRequestFunc : Type := W -> Outcome * W.

Definition call (requestFunc : RetryableRequestFunc) : Eff Outcome :=
  fun st => let '(o, w) := requestFunc (fst st) in (o, (w, snd st ++ [EvRequest])).

Definition Sleep (d : Z) : Eff unit := emit (EvSleep d).
Definition Printf (line : LogLine) : Eff unit := emit (EvPrintf line).

Notation "x <- m ;; k" := (bind m (fun x => k))
  (at level 100, m at next level, right associativity).
Notation "m ;;; k" := (bind m (fun _ => k))
  (at level 100, right associativity).

(** The loop [for attempt := 1; attempt <= MaxRetryAttempts; attempt++]
    with [remaining] turns left, the next of them numbered [attempt]. *)
Fixpoint RetryableRequest_loop (requestFunc : RetryableRequestFunc)
    (providerName : string) (remaining : nat) (attempt : Z)
    (lastResp : option Response) (lastErr : option string)
    (lastErrorType : RetryErrorType) : Eff Outcome :=
  match remaining with
  | O =>
      Printf (LogAllFailed providerName MaxRetryAttempts lastErrorType) ;;;
      ret (lastResp, lastErr)
  | S remaining' =>
      Printf (LogWait providerName RetryInterval attempt) ;;;
      Sleep RetryInterval ;;;
      o <- call requestFunc ;;
      let '(resp, err) := o in
      let '(shouldRetry, errorType) := ShouldRetry resp err in
      if negb shouldRetry then
        Printf (LogRetryOk providerName attempt) ;;;
        ret (resp, err)
      else
        Printf (LogRetryFailed providerName attempt errorType) ;;;
        RetryableRequest_loop requestFunc providerName remaining'
          (attempt + 1) resp err errorType
  end.

Definition RetryableRequest (requestFunc : RetryableRequestFunc)
    (providerName : string) : Eff Outcome :=
  o <- call requestFunc ;;
  let '(lastResp, lastErr) := o in
  let '(shouldRetry, errorType) := ShouldRetry lastResp lastErr in
  if negb shouldRetry then ret (lastResp, lastErr)
  else
    Printf (LogFirstFailed providerName errorType) ;;;
    RetryableRequest_loop requestFunc providerName MaxRetryAttempts 1
      lastResp lastErr errorType.

(** The lower-cased model name carries the 1M-context marker. *)
Definition carries_1m (model : string) : bool := Contains (ToLower model) "[1m]".

(** ** The resolution order, as it is described

    Six lookups are tried in order and the first that hits decides. A hit
    carries the entry that is returned, which is [nil] only when the
    normalized index names a key that the pricing table lacks. *)

Fixpoint first_hit {A} (steps : list (option A)) : option A :=
  match steps with
  | [] => None
  | Some a :: _ => Some a
  | None :: steps' => first_hit steps'
  end.

Definition strip_region (name : string) : string :=
  if HasPrefix (ToLower name) "us." then slice_from 3 name
  else if HasPrefix (ToLower name) "eu." then slice_from 3 name
  else if HasPrefix (ToLower name) "apac." then slice_from 5 name
  else name.

Definition strip_provider (name : string) : string :=
  if HasPrefix name "anthropic." then slice_from 10 name else name.

Definition scan_match (normalizedTarget key : string) : bool :=
  Contains (normalizeName key) normalizedTarget
  || Contains normalizedTarget (normalizeName key).

(** The five lookups that do not range over the table. *)
Definition keyed_steps (s : Service) (model : string)
    : list (option (option PricingEntry)) :=
  [ Some <$> pricingMap s !! model;
    if String.eqb model "gpt-5-codex" then Some <$> pricingMap s !! "gpt-5"%string else None;
    Some <$> pricingMap s !! strip_region model;
    Some <$> pricingMap s !! strip_provider (strip_region model);
    (fun key => pricingMap s !! key) <$> normalized s !! normalizeName model ].

Definition scan_step (s : Service) (ord : list string) (model : string)
    : option (option PricingEntry) :=
  (fun kv => Some kv.2) <$>
    List.find (fun kv => scan_match (normalizeName model) kv.1)
              (go_range (pricingMap s) ord).

Definition resolution_steps (s : Service) (ord : list string) (model : string)
    : list (option (option PricingEntry)) :=
  keyed_steps s model ++ [scan_step s ord model].

Definition resolve_by_steps (s : Service) (ord : list string) (model : string)
    : option PricingEntry * bool :=
  match first_hit (resolution_steps s ord model) with
  | Some entry => (entry, true)
  | None => (None, false)
  end.


(** ** The normalized index, as it is described

    The key that is seen first for a normalized name, in the order in
    which the table is visited, stays the canonical key of that name. *)

Definition first_seen (ord : list string) (norm : string) : option string :=
  List.find (fun key => String.eqb (normalizeName key) norm) ord.


(** The invariant of a constructed service: the normalized index names
    keys of the pricing table only. *)
Definition service_wf (s : Service) : Prop :=
  forall norm key, normalized s !! norm = Some key -> is_Some (pricingMap s !! key).


(** An entry with its five tiered prices set to zero. *)
Definition without_tiers (entry : PricingEntry) : PricingEntry :=
  mkPricingEntry
    (InputCostPerToken entry) (OutputCostPerToken entry)
    (CacheCreationInputTokenCost entry) 0 0
    (CacheReadInputTokenCost entry) 0 0 0.

(** Two services that differ at most in the tiered prices of their
    entries. *)
Definition same_but_tiers (s1 s2 : Service) : Prop :=
  (forall key, without_tiers <$> pricingMap s1 !! key
               = without_tiers <$> pricingMap s2 !! key) /\
  normalized s1 = normalized s2 /\
  ephemeral1h s1 = ephemeral1h s2 /\
  longContexts s1 = longContexts s2.


(** Two results of resolution that differ at most in the tiered prices. *)
Definition same_result (r1 r2 : option PricingEntry * bool) : Prop :=
  without_tiers <$> r1.1 = without_tiers <$> r2.1 /\ r1.2 = r2.2.

(** ** The retry policy, as it is described *)

(** An outcome is retried when it is a rate-limit error, a network error
    or a server error. *)
Definition retry_class (o : Outcome) : bool :=
  IsRateLimitError o.1 || IsNetworkError o.2 || IsServerError o.1.

(** One request; while its outcome is retried and retries are left, a
    sleep of two seconds and the same again with one retry less. The
    result is the outcome returned, the world after the last request, and
    the requests and sleeps in the order in which they happen. *)
Fixpoint retry_policy (requestFunc : RetryableRequestFunc) (retries : nat) (w : W)
    : Outcome * W * list Event :=
  let '(o, w') := requestFunc w in
  if retry_class o then
    match retries with
    | O => (o, w', [EvRequest])
    | S retries' =>
        let '(o', w'', events) := retry_policy requestFunc retries' w' in
        (o', w'', EvRequest :: EvSleep 2000000000 :: events)
    end
  else (o, w', [EvRequest]).

(** The outcomes of [n] successive requests from the world [w], and the
    world after them. *)
Fixpoint run_requests (requestFunc : RetryableRequestFunc) (n : nat) (w : W)
    : list Outcome * W :=
  match n with
  | O => ([], w)
  | S n' =>
      let '(o, w') := requestFunc w in
      let '(os, w'') := run_requests requestFunc n' w' in
      (o :: os, w'')
  end.

(** The trace without its log lines. *)
Definition is_effect (e : Event) : bool :=
  match e with
  | EvPrintf _ => false
  | _ => true
  end.

Definition effects (trace : list Event) : list Event := List.filter is_effect trace.

Definition is_request (e : Event) : bool :=
  match e with
  | EvRequest => true
  | _ => false
  end.

Definition requests (trace : list Event) : nat := length (List.filter is_request trace).

(** A request followed by [n] times a sleep of the retry interval and a
    request. *)
Fixpoint request_and_retries (n : nat) : list Event :=
  match n with
  | O => [EvRequest]
  | S n' => EvRequest :: EvSleep RetryInterval :: request_and_retries n'
  end.


(** ** Sample tables and inputs *)

Definition sample_entry_a : PricingEntry :=
  mkPricingEntry 0.000003 0.000015 0 0 0 0 0 0 0.

Definition sample_entry_b : PricingEntry :=
  mkPricingEntry 0.00000015 0.0000006 0 0 0 0 0 0 0.

(** [sample_entry_a] with tiered prices. *)
Definition sample_entry_tiered : PricingEntry :=
  mkPricingEntry 0.000003 0.000015 0 0.000006 0.0000075 0 0.000006 0.000004 0.0000225.

(** A table with two keys that the scan matches for the name gpt-4. *)
Definition scan_table : gmap string PricingEntry :=
  list_to_map [("gpt-4o"%string, sample_entry_a); ("gpt-4o-mini"%string, sample_entry_b)].

Definition scan_table_tiered : gmap string PricingEntry :=
  list_to_map [("gpt-4o"%string, sample_entry_tiered); ("gpt-4o-mini"%string, sample_entry_b)].


(** A table for the model claude-sonnet-4, which the one-hour table
    lists at 0.000006; its cache-creation price is derived from the
    input price as 0.00000375. *)
Definition sonnet_table : gmap string PricingEntry :=
  {[ "claude-sonnet-4"%string := sample_entry_a ]}.

(** A decoder that reads the table [table] from its document. *)
Definition decode_as (table : gmap string PricingEntry)
    : string -> option (gmap string PricingEntry) :=
  fun _ => Some table.

(** A decoder of two documents, one with the tiered table and one with
    the plain one. *)
Definition decode_named (data : string) : option (gmap string PricingEntry) :=
  if String.eqb data "tiered" then Some scan_table_tiered
  else if String.eqb data "plain" then Some scan_table
  else None.

(** The service that [NewServiceFromData] constructs from [scan_table]. *)
Definition scan_service : Service :=
  mkService
    (ensureCachePricing <$> scan_table)
    (list_to_map [("gpt4o"%string, "gpt-4o"%string);
                  ("gpt4omini"%string, "gpt-4o-mini"%string)])
    buildEphemeral1hPricing buildLongContextPricing.

Definition sample_usage : UsageSnapshot := mkUsageSnapshot 1000 200 500 0 None.

(** A request function whose world counts the requests made: the first
    [failures] requests are answered with status 503, the later ones with
    status 200. *)
Definition status_response (status : Z) : Response :=
  mkResponse status (fun _ => EmptyString) EmptyString.

Definition flaky (failures : nat) (made : nat) : Outcome * nat :=
  (Some (status_response (if (made <? failures)%nat then 503 else 200)), None, S made).

(** ** The data sources and the periodic update

    The functions of [price.go] that read the cache file, fetch the
    remote table and keep the default service fresh act on the world
    below: the answers of the operating system, of the network and of the
    clock, the cache file, the package variables, and the trace of what
    was done. The answer to an operation is looked up by the position the
    operation takes in the trace, so that no two operations are bound to
    have the same answer. Timer callbacks run one at a time; the wall
    clock and the monotonic clock agree. *)

(** [updateInterval = 24 * time.Hour] and [time.Minute], in nanoseconds. *)
Definition updateInterval : Z := 24 * 3600 * 1000000000.
Definition time_Minute : Z := 60 * 1000000000.

(** A [time.Time] is carried by its nanoseconds since the Unix epoch. The
    zero [Time] is the first instant of year 1, which is 62135596800
    seconds before the epoch. *)
Definition unixToInternal : Z := 62135596800.
Definition zeroTime : Z := - unixToInternal * 1000000000.
Definition IsZero (t : Z) : bool := t =? zeroTime.

(** [time.Unix(sec, 0)]. A [Time] keeps its seconds since year 1 in an
    [int64], and [sec + unixToInternal] wraps around: a timestamp from
    9223371974719179008 on is a time some 292 billion years in the
    past. *)
Definition time_Unix (sec : Z) : Z :=
  (GoInt.add sec unixToInternal - unixToInternal) * 1000000000.
Definition Unix (t : Z) : Z := t / 1000000000.

(** [t.Sub(u)]: the difference as a [Duration], which saturates. *)
Definition Sub (t u : Z) : Z := Z.max GoInt.min_int (Z.min GoInt.max_int (t - u)).

(** What the Go library and the build contribute: whether bytes are a
    JSON object ([json.Unmarshal] into a [map[string]interface{}]), the
    encoding and decoding of the cache document with its timestamp and
    data, and the embedded pricing file. *)
Record Platform := mkPlatform {
  json_valid : string -> bool;
  cache_Marshal : Z -> string -> option string;
  cache_Unmarshal : string -> option (Z * string);
  pricingFile : string
}.

Inductive HttpResult :=
| HttpFailed
| HttpAnswer (status : Z) (body : option string).

Inductive Error :=
| ErrHomeDir
| ErrMkdir
| ErrCacheMissing
| ErrCacheRead
| ErrCacheDecode
| ErrCacheExpired
| ErrRequest
| ErrStatus (status : Z)
| ErrReadBody
| ErrInvalidJSON
| ErrMarshal
| ErrWrite
| ErrParse.

Inductive Result (A : Type) :=
| Ok (a : A)
| Fail (e : Error).

Arguments Ok {A} a.
Arguments Fail {A} e.

Inductive Message :=
| WarnEmbedded (e : Error)
| WarnSaveFailed (e : Error)
| UpdateStart
| UpdateFetchFailed (e : Error)
| UpdateBuildFailed (e : Error)
| UpdateSaveFailed (e : Error)
| UpdateDone.

Inductive IoEvent :=
| IoNow
| IoUserHomeDir
| IoMkdirAll
| IoStat
| IoReadFile
| IoWriteFile (bytes : string)
| IoHttpGet (timeout : Z)
| IoPrint (msg : Message)
| IoAfterFunc (d : Z)
| IoTimerStop.

(** The answers of the surroundings, by position in the trace. A write
    that fails leaves the file in the state [brokenWrite] says. *)
Record Env := mkEnv {
  clock : nat -> Z;
  homeOk : nat -> bool;
  mkdirOk : nat -> bool;
  readOk : nat -> bool;
  writeOk : nat -> bool;
  brokenWrite : nat -> option string;
  http : nat -> HttpResult
}.

Inductive Callback :=
| FirstUpdate
| NextUpdate.

(** A [*time.Timer] made by [time.AfterFunc]. *)
Record Timer := mkTimer {
  delay : Z;
  callback : Callback;
  pending : bool
}.

(** The package variables. *)
Record Vars := mkVars {
  defaultOnce : bool;
  defaultService : option Service;
  defaultErr : option Error;
  lastUpdateTime : Z;
  updateTimer : option Timer
}.

Record World := mkWorld {
  env : Env;
  cacheFile : option string;
  vars : Vars;
  trace : list IoEvent
}.

Definition initialVars : Vars := mkVars false None None zeroTime None.

(** An operation: its event goes to the end of the trace. *)
Definition io (e : IoEvent) (w : World) : World :=
  mkWorld (env w) (cacheFile w) (vars w) (trace w ++ [e]).

Definition set_vars (v : Vars) (w : World) : World :=
  mkWorld (env w) (cacheFile w) v (trace w).

Definition set_cacheFile (f : option string) (w : World) : World :=
  mkWorld (env w) f (vars w) (trace w).

Definition set_lastUpdateTime (t : Z) (w : World) : World :=
  set_vars (mkVars (defaultOnce (vars w)) (defaultService (vars w))
              (defaultErr (vars w)) t (updateTimer (vars w))) w.

Definition set_updateTimer (t : option Timer) (w : World) : World :=
  set_vars (mkVars (defaultOnce (vars w)) (defaultService (vars w))
              (defaultErr (vars w)) (lastUpdateTime (vars w)) t) w.

Definition set_defaultService (s : option Service) (w : World) : World :=
  set_vars (mkVars (defaultOnce (vars w)) s
              (defaultErr (vars w)) (lastUpdateTime (vars w)) (updateTimer (vars w))) w.

(** The position of the next operation. *)
Definition next (w : World) : nat := length (trace w).

Definition time_Now (w : World) : Z * World :=
  (clock (env w) (next w), io IoNow w).

Definition Printf_io (msg : Message) (w : World) : World := io (IoPrint msg) w.

Definition of_option (o : option Service) : Result Service :=
  match o with
  | Some s => Ok s
  | None => Fail ErrParse
  end.

(** [NewService()] *)
Definition NewService (pf : Platform) (ord : list string) : option Service :=
  NewServiceFromData ord (pricingFile pf).

(** [getCacheFilePath()]; the path itself is not carried, the cache file
    being the only file. *)
Definition getCacheFilePath (w : World) : Result unit * World :=
  let w1 := io IoUserHomeDir w in
  if negb (homeOk (env w) (next w)) then (Fail ErrHomeDir, w1)
  else
    let w2 := io IoMkdirAll w1 in
    if negb (mkdirOk (env w) (next w1)) then (Fail ErrMkdir, w2)
    else (Ok tt, w2).

(** [fetchRemotePricing()] *)
Definition fetchRemotePricing (pf : Platform) (w : World) : Result string * World :=
  let w1 := io (IoHttpGet (30 * 1000000000)) w in
  match http (env w) (next w) with
  | HttpFailed => (Fail ErrRequest, w1)
  | HttpAnswer status body =>
      if negb (status =? 200) then (Fail (ErrStatus status), w1)
      else
        match body with
        | None => (Fail ErrReadBody, w1)
        | Some data =>
            if json_valid pf data then (Ok data, w1) else (Fail ErrInvalidJSON, w1)
        end
  end.

(** [saveToCache(data)] *)
Definition saveToCache (pf : Platform) (data : string) (w : World) : Result unit * World :=
  let '(path, w1) := getCacheFilePath w in
  match path with
  | Fail e => (Fail e, w1)
  | Ok _ =>
      let '(now, w2) := time_Now w1 in
      match cache_Marshal pf (Unix now) data with
      | None => (Fail ErrMarshal, w2)
      | Some cacheBytes =>
          let w3 := io (IoWriteFile cacheBytes) w2 in
          if writeOk (env w) (next w2)
          then (Ok tt, set_cacheFile (Some cacheBytes) w3)
          else (Fail ErrWrite, set_cacheFile (brokenWrite (env w) (next w2)) w3)
      end
  end.

(** [loadFromCache()] *)
Definition loadFromCache (pf : Platform) (w : World) : Result string * World :=
  let '(path, w1) := getCacheFilePath w in
  match path with
  | Fail e => (Fail e, w1)
  | Ok _ =>
      let w2 := io IoStat w1 in
      match cacheFile w with
      | None => (Fail ErrCacheMissing, w2)
      | Some content =>
          let w3 := io IoReadFile w2 in
          if negb (readOk (env w) (next w2)) then (Fail ErrCacheRead, w3)
          else
            match cache_Unmarshal pf content with
            | None => (Fail ErrCacheDecode, w3)
            | Some (timestamp, data) =>
                let cacheTime := time_Unix timestamp in
                let '(now, w4) := time_Now w3 in
                if updateInterval <? Sub now cacheTime then (Fail ErrCacheExpired, w4)
                else (Ok data, set_lastUpdateTime cacheTime w4)
            end
      end
  end.

(** [NewServiceWithDynamicUpdate()]; [ord] is the order of the range of
    [NewServiceFromData]. *)
Definition NewServiceWithDynamicUpdate (pf : Platform) (ord : list string) (w : World)
    : Result Service * World :=
  let '(cached, w1) := loadFromCache pf w in
  let '(data, w') :=
    match cached with
    | Ok data => (data, w1)
    | Fail _ =>
        let '(fetched, w2) := fetchRemotePricing pf w1 in
        match fetched with
        | Fail e => (pricingFile pf, Printf_io (WarnEmbedded e) w2)
        | Ok data =>
            let '(saved, w3) := saveToCache pf data w2 in
            let w4 :=
              match saved with
              | Fail saveErr => Printf_io (WarnSaveFailed saveErr) w3
              | Ok _ => w3
              end in
            let '(now, w5) := time_Now w4 in
            (data, set_lastUpdateTime now w5)
        end
    end in
  (of_option (NewServiceFromData ord data), w').

(** [updatePricingData()] *)
Definition updatePricingData (pf : Platform) (ord : list string) (w : World) : World :=
  let w0 := Printf_io UpdateStart w in
  let '(fetched, w1) := fetchRemotePricing pf w0 in
  match fetched with
  | Fail e => Printf_io (UpdateFetchFailed e) w1
  | Ok data =>
      match NewServiceFromData ord data with
      | None => Printf_io (UpdateBuildFailed ErrParse) w1
      | Some newService =>
          let w2 := set_defaultService (Some newService) w1 in
          let '(now, w3) := time_Now w2 in
          let w4 := set_lastUpdateTime now w3 in
          let '(saved, w5) := saveToCache pf data w4 in
          let w6 :=
            match saved with
            | Fail e => Printf_io (UpdateSaveFailed e) w5
            | Ok _ => w5
            end in
          Printf_io UpdateDone w6
      end
  end.

(** [startPeriodicUpdate()] *)
Definition startPeriodicUpdate (w : World) : World :=
  let '(nextUpdate, w1) :=
    if negb (IsZero (lastUpdateTime (vars w))) then
      let '(now, w1) := time_Now w in
      let elapsed := Sub now (lastUpdateTime (vars w)) in
      if elapsed <? updateInterval
      then (GoInt.sub updateInterval elapsed, w1)
      else (time_Minute, w1)
    else (updateInterval, w) in
  set_updateTimer (Some (mkTimer nextUpdate FirstUpdate true))
    (io (IoAfterFunc nextUpdate) w1).

(** The runtime fires the timer that [updateTimer] holds, if it is
    pending, and runs its callback: the first one updates and makes the
    timer of the next update, the next one updates. *)
Definition fire (pf : Platform) (ord : list string) (w : World) : World :=
  match updateTimer (vars w) with
  | Some (mkTimer d FirstUpdate true) =>
      let w1 := set_updateTimer (Some (mkTimer d FirstUpdate false)) w in
      let w2 := updatePricingData pf ord w1 in
      set_updateTimer (Some (mkTimer updateInterval NextUpdate true))
        (io (IoAfterFunc updateInterval) w2)
  | Some (mkTimer d NextUpdate true) =>
      let w1 := set_updateTimer (Some (mkTimer d NextUpdate false)) w in
      updatePricingData pf ord w1
  | _ => w
  end.

(** [StopPeriodicUpdate()] *)
Definition StopPeriodicUpdate (w : World) : World :=
  match updateTimer (vars w) with
  | Some _ => set_updateTimer None (io IoTimerStop w)
  | None => w
  end.

(** [DefaultService()] *)
Definition DefaultService (pf : Platform) (ord : list string) (w : World)
    : (option Service * option Error) * World :=
  let w' :=
    if defaultOnce (vars w) then w
    else
      let '(built, w1) := NewServiceWithDynamicUpdate pf ord w in
      let v := vars w1 in
      match built with
      | Ok s =>
          let w2 := set_vars (mkVars true (Some s) None
                                (lastUpdateTime v) (updateTimer v)) w1 in
          startPeriodicUpdate w2
      | Fail e =>
          set_vars (mkVars true None (Some e) (lastUpdateTime v) (updateTimer v)) w1
      end in
  ((defaultService (vars w'), defaultErr (vars w')), w').


(** The remote table as [fetchRemotePricing] accepts it: the body of the
    answer at position [i] when the status is 200 and the body is a JSON
    object. *)
Definition remote_data (pf : Platform) (e : Env) (i : nat) : option string :=
  match http e i with
  | HttpAnswer status (Some data) =>
      if (status =? 200) && json_valid pf data then Some data else None
  | _ => None
  end.

(** The updates begun in a trace. *)
Definition is_update (e : IoEvent) : bool :=
  match e with
  | IoPrint UpdateStart => true
  | _ => false
  end.

Definition updates (t : list IoEvent) : nat := length (List.filter is_update t).

Definition is_remote_or_write (e : IoEvent) : bool :=
  match e with
  | IoHttpGet _ | IoWriteFile _ => true
  | _ => false
  end.

(** What may happen to the world once the default service is set up: the
    runtime fires the timer, or the program stops the periodic update or
    asks for the default service. *)
Inductive Action :=
| ActFire (ord : list string)
| ActStop
| ActDefaultService (ord : list string).

Definition step (pf : Platform) (w : World) (a : Action) : World :=
  match a with
  | ActFire ord => fire pf ord w
  | ActStop => StopPeriodicUpdate w
  | ActDefaultService ord => (DefaultService pf ord w).2
  end.

Definition run (pf : Platform) (acts : list Action) (w : World) : World :=
  foldl (step pf) w acts.


(** The updates that the timer held in [updateTimer] can still start: two
    from the first timer, one from the next, none from a timer that has
    fired or from no timer. *)
Definition updates_left (t : option Timer) : nat :=
  match t with
  | Some (mkTimer _ FirstUpdate true) => 2
  | Some (mkTimer _ NextUpdate true) => 1
  | _ => 0
  end.


(** The callback of a timer runs in a goroutine of its own, so the rest
    of the program may act after the timer has expired and before the
    callback has updated, and again before the callback of the first
    timer has made the next timer. The finer runtime keeps the callbacks
    that are under way, each at the stage it has reached, and moves one
    of them at a time. *)
Inductive Stage :=
| Updating (cb : Callback)
| Rearming.

Record Runtime := mkRuntime {
  world : World;
  running : list Stage
}.

Inductive Move :=
| MoveExpire
| MoveCallback (i : nat) (ord : list string)
| MoveStop
| MoveDefaultService (ord : list string).

(** The timer that [updateTimer] holds expires, if it is pending, and
    its callback starts. *)
Definition expire (r : Runtime) : Runtime :=
  match updateTimer (vars (world r)) with
  | Some (mkTimer d cb true) =>
      mkRuntime (set_updateTimer (Some (mkTimer d cb false)) (world r))
        (running r ++ [Updating cb])
  | _ => r
  end.

(** The callback at position [i] goes on to its next stage: it calls
    [updatePricingData], or, in the callback of the first timer after
    that, assigns the next timer to [updateTimer]. *)
Definition resume (pf : Platform) (i : nat) (ord : list string) (r : Runtime) : Runtime :=
  match running r !! i with
  | Some (Updating FirstUpdate) =>
      mkRuntime (updatePricingData pf ord (world r)) (<[i := Rearming]> (running r))
  | Some (Updating NextUpdate) =>
      mkRuntime (updatePricingData pf ord (world r)) (delete i (running r))
  | Some Rearming =>
      mkRuntime
        (set_updateTimer (Some (mkTimer updateInterval NextUpdate true))
           (io (IoAfterFunc updateInterval) (world r)))
        (delete i (running r))
  | None => r
  end.

Definition move (pf : Platform) (r : Runtime) (m : Move) : Runtime :=
  match m with
  | MoveExpire => expire r
  | MoveCallback i ord => resume pf i ord r
  | MoveStop => mkRuntime (StopPeriodicUpdate (world r)) (running r)
  | MoveDefaultService ord => mkRuntime (DefaultService pf ord (world r)).2 (running r)
  end.

Definition moves (pf : Platform) (ms : list Move) (r : Runtime) : Runtime :=
  foldl (move pf) r ms.

(** A platform, surroundings and a world for concrete runs: every bytes
    are a JSON object, the cache document is its data with the timestamp
    0, the clock stands at one second, every operation succeeds and every
    request is answered with status 200 and the document [plain]. *)
Definition sample_platform : Platform :=
  mkPlatform (fun _ => true) (fun _ data => Some data) (fun content => Some (0, content))
    "plain".

Definition sample_env : Env :=
  mkEnv (fun _ => 1000000000) (fun _ => true) (fun _ => true) (fun _ => true)
    (fun _ => true) (fun _ => None) (fun _ => HttpAnswer 200 (Some "plain"%string)).

(** The same surroundings with a network that is down. *)
Definition offline_env : Env :=
  mkEnv (fun _ => 1000000000) (fun _ => true) (fun _ => true) (fun _ => true)
    (fun _ => true) (fun _ => None) (fun _ => HttpFailed).

(** A program that has just started, with a cache file. *)
Definition sample_world : World :=
  mkWorld sample_env (Some "plain"%string) initialVars [].

(** A program whose default service is set up, without a cache file. *)
Definition running_world (e : Env) : World :=
  mkWorld e None (mkVars true (Some scan_service) None zeroTime None) [].


(** A cache document for concrete runs: the timestamp in decimal, a
    semicolon, and the data in compact form, here the data without their
    blanks. The decoder of tables that goes with it reads the two
    documents of [decode_named], whatever blanks they carry. *)
Definition compact (data : string) : string :=
  Replace [(" "%char, EmptyString)] data.

Fixpoint cut (sep : ascii) (s : string) : option (string * string) :=
  match s with
  | EmptyString => None
  | String c s' =>
      if Ascii.eqb c sep then Some (EmptyString, s')
      else
        match cut sep s' with
        | Some (before, after) => Some (String c before, after)
        | None => None
        end
  end.

Definition compacting_platform : Platform :=
  mkPlatform (fun _ => true)
    (fun timestamp data =>
       Some (NilZero.string_of_int (Z.to_int timestamp) +:+ ";" +:+ compact data))
    (fun content =>
       match cut ";"%char content with
       | Some (number, data) =>
           match NilZero.int_of_string number with
           | Some i => Some (Z.of_int i, data)
           | None => None
           end
       | None => None
       end)
    "plain".

Definition decode_spaced (data : string) : option (gmap string PricingEntry) :=
  decode_named (compact data).

(** Surroundings whose clock stands half a second after the second
    1700000000 of the epoch. *)
Definition late_env : Env :=
  mkEnv (fun _ => 1700000000500000000) (fun _ => true) (fun _ => true) (fun _ => true)
    (fun _ => true) (fun _ => None) (fun _ => HttpFailed).


(** ** Properties of the pricing service *)

(** *** Go integers and byte strings *)

Lemma GoInt_wrap_in_range z : GoInt.in_range z -> GoInt.wrap z = z.
Proof.
  unfold GoInt.in_range, GoInt.min_int, GoInt.max_int, GoInt.wrap. intros H.
  rewrite Z.mod_small; lia.
Qed.

Lemma GoInt_wrap_range z : GoInt.in_range (GoInt.wrap z).
Proof.
  unfold GoInt.in_range, GoInt.min_int, GoInt.max_int, GoInt.wrap.
  pose proof (Z.mod_pos_bound (z + 2 ^ 63) (2 ^ 64)). lia.
Qed.

Lemma HasPrefix_length s prefix :
  HasPrefix s prefix = true -> (String.length prefix <= String.length s)%nat.
Proof.
  revert s. induction prefix as [|p prefix IH]; intros s H; simpl in *.
  - lia.
  - destruct s as [|c s]; [discriminate|].
    apply andb_prop in H as [_ H]. apply IH in H. simpl. lia.
Qed.

Lemma ascii_ToLower_length s : String.length (ascii_ToLower s) = String.length s.
Proof. induction s as [|c s IH]; simpl; congruence. Qed.

(** With the lowering of ASCII strings, a prefix found on the lower-cased
    name is no longer than the name: the slices [name[len(prefix):]] of
    [stripRegionPrefix] and of [strings.TrimPrefix] are within bounds. *)
Lemma prefix_slice_in_bounds name prefix :
  HasPrefix (ascii_ToLower name) prefix = true \/ HasPrefix name prefix = true ->
  (String.length prefix <= String.length name)%nat.
Proof.
  intros [H|H]; apply HasPrefix_length in H; [|done].
  by rewrite ascii_ToLower_length in H.
Qed.

(** *** Ranging over maps *)

Lemma elem_of_go_range {V} (m : gmap string V) ord k v :
  (k, v) ∈ go_range m ord <-> k ∈ ord /\ m !! k = Some v.
Proof.
  unfold go_range. rewrite list_elem_of_omap. split.
  - intros (k' & Hin & Hk). destruct (m !! k') as [v'|] eqn:E; simpl in Hk; [|done].
    by simplify_eq.
  - intros [Hin Hk]. exists k. by rewrite Hk.
Qed.

Lemma go_range_nonempty {V} (m : gmap string V) ord :
  range_order m ord -> m <> ∅ -> go_range m ord <> [].
Proof.
  intros [_ Hord] Hne Hnil.
  destruct (map_choose m Hne) as (k & v & Hk).
  assert ((k, v) ∈ go_range m ord) as Hin.
  { apply elem_of_go_range. split; [|done]. apply Hord. by exists v. }
  rewrite Hnil in Hin. by apply not_elem_of_nil in Hin.
Qed.

Lemma go_range_head {V} (m : gmap string V) ord k v rest :
  go_range m ord = (k, v) :: rest -> m !! k = Some v.
Proof.
  intros H. apply (elem_of_go_range m ord k v). rewrite H. left.
Qed.

(** *** Integers of the usage snapshot *)

Lemma totalInput_exact usage :
  GoInt.in_range (InputTokens usage + CacheCreateTokens usage) ->
  GoInt.in_range (InputTokens usage + CacheCreateTokens usage + CacheReadTokens usage) ->
  totalInput usage =
    InputTokens usage + CacheCreateTokens usage + CacheReadTokens usage.
Proof.
  intros H1 H2. unfold totalInput, GoInt.add.
  rewrite (GoInt_wrap_in_range _ H1). by rewrite (GoInt_wrap_in_range _ H2).
Qed.

(** *** The two ways out of [CalculateCost] *)

Lemma CalculateCost_unpriced s ordP ordL model usage :
  model <> EmptyString ->
  (getPricing s ordP model).1 = None ->
  carries_1m model = false ->
  CalculateCost (Some s) ordP ordL model usage =
    mkCostBreakdown 0 0 0 0 0 0 0 (getPricing s ordP model).2 false.
Proof.
  intros Hne Hentry Hm. unfold CalculateCost, carries_1m in *.
  apply String.eqb_neq in Hne. rewrite Hne.
  destruct (getPricing s ordP model) as [entry found]. simpl in *. subst entry.
  by rewrite Hm.
Qed.

Lemma CalculateCost_priced s ordP ordL model usage :
  model <> EmptyString ->
  is_Some (getPricing s ordP model).1 \/ carries_1m model = true ->
  let entry := default zeroPricingEntry (getPricing s ordP model).1 in
  let tier := longContextTier s ordL model usage in
  let inputCost :=
    if tier.2
    then (GoInt.to_float64 (InputTokens usage) * Input tier.1)%float
    else (GoInt.to_float64 (InputTokens usage) * InputCostPerToken entry)%float in
  let outputCost :=
    if tier.2
    then (GoInt.to_float64 (OutputTokens usage) * Output tier.1)%float
    else (GoInt.to_float64 (OutputTokens usage) * OutputCostPerToken entry)%float in
  let tokens := resolveCacheTokens usage in
  let cache5mCost :=
    (GoInt.to_float64 tokens.1 * CacheCreationInputTokenCost entry)%float in
  let cache1hCost :=
    (GoInt.to_float64 tokens.2 * getEphemeral1hPricing s model)%float in
  let cacheCreateCost :=
    GoFloat.add_products (GoFloat.fuseCacheCreateCost fusion)
      (GoInt.to_float64 tokens.1) (CacheCreationInputTokenCost entry)
      (GoInt.to_float64 tokens.2) (getEphemeral1hPricing s model) in
  let cacheReadCost :=
    (GoInt.to_float64 (CacheReadTokens usage) * CacheReadInputTokenCost entry)%float in
  let inputOutputCost :=
    if tier.2
    then GoFloat.add_products (GoFloat.fuseInputOutputCost fusion)
           (GoInt.to_float64 (InputTokens usage)) (Input tier.1)
           (GoInt.to_float64 (OutputTokens usage)) (Output tier.1)
    else GoFloat.add_products (GoFloat.fuseInputOutputCost fusion)
           (GoInt.to_float64 (InputTokens usage)) (InputCostPerToken entry)
           (GoInt.to_float64 (OutputTokens usage)) (OutputCostPerToken entry) in
  let totalCost :=
    GoFloat.add_product (GoFloat.fuseCacheReadCost fusion)
      (inputOutputCost + cacheCreateCost)%float
      (GoInt.to_float64 (CacheReadTokens usage)) (CacheReadInputTokenCost entry) in
  CalculateCost (Some s) ordP ordL model usage =
    mkCostBreakdown inputCost outputCost cacheCreateCost cacheReadCost
      cache5mCost cache1hCost totalCost
      (PrimFloat.ltb 0 totalCost || (getPricing s ordP model).2) tier.2.
Proof.
  intros Hne Hcase. unfold CalculateCost, carries_1m in *.
  apply String.eqb_neq in Hne. rewrite Hne.
  destruct (getPricing s ordP model) as [entry found]. simpl in *.
  assert (bool_decide (entry = None) && negb (Contains (ToLower model) "[1m]") = false) as ->.
  { destruct Hcase as [[e ->]| ->].
    - by rewrite bool_decide_eq_false_2.
    - by rewrite andb_false_r. }
  destruct (longContextTier s ordL model usage) as [longTier useLong].
  destruct (resolveCacheTokens usage) as [five one]. simpl.
  reflexivity.
Qed.

(** *** The long-context tier *)

Lemma longContextTier_below s ord model usage :
  totalInput usage <= 200000 ->
  longContextTier s ord model usage = (zeroLongContextPricing, false).
Proof.
  intros H. unfold longContextTier.
  assert ((200000 <? totalInput usage) = false) as -> by lia.
  by rewrite andb_false_r.
Qed.

Lemma longContextTier_above s ord model usage :
  carries_1m model = true ->
  longContexts s <> ∅ ->
  range_order (longContexts s) ord ->
  200000 < totalInput usage ->
  exists tier,
    longContextTier s ord model usage = (tier, true) /\
    (longContexts s !! model = Some tier \/
     longContexts s !! model = None /\ exists key, longContexts s !! key = Some tier).
Proof.
  intros Hm Hne Hord Hgt. unfold longContextTier, carries_1m in *. rewrite Hm.
  assert ((200000 <? totalInput usage) = true) as -> by lia.
  assert ((0 <? size (longContexts s))%nat = true) as ->.
  { apply Nat.ltb_lt. apply map_size_non_empty_iff in Hne. lia. }
  simpl. destruct (longContexts s !! model) as [tier|] eqn:E.
  - exists tier. auto.
  - pose proof (go_range_nonempty _ _ Hord Hne) as Hrange.
    destruct (go_range (longContexts s) ord) as [|[key tier] rest] eqn:R; [done|].
    exists tier. split; [done|]. right. split; [done|].
    exists key. by apply go_range_head in R.
Qed.

(** C1. For a model whose lower-cased name contains the 1M marker and a
    service with a non-empty long-context table, the long-context tier
    is applied exactly when the total of input, cache-creation and
    cache-read tokens exceeds 200000. Up to 200000 (so at 200000
    itself) the breakdown is not long-context and the input and output
    costs use the base rates of the entry; from 200001 on it is, and
    the two costs use the rates of the tier, which is the entry of the
    long-context table under the model name if there is one and some
    entry of the table otherwise. The total is Go's sum, which is the
    mathematical sum as long as that does not overflow. *)
Theorem long_context_threshold s ordP ordL model usage :
  ToLower EmptyString = EmptyString ->
  carries_1m model = true ->
  longContexts s <> ∅ ->
  range_order (longContexts s) ordL ->
  let b := CalculateCost (Some s) ordP ordL model usage in
  let entry := default zeroPricingEntry (getPricing s ordP model).1 in
  (IsLongContext b = true <-> 200000 < totalInput usage) /\
  (totalInput usage <= 200000 ->
     IsLongContext b = false /\
     InputCost b = (GoInt.to_float64 (InputTokens usage) * InputCostPerToken entry)%float /\
     OutputCost b = (GoInt.to_float64 (OutputTokens usage) * OutputCostPerToken entry)%float) /\
  (200000 < totalInput usage ->
     exists tier,
       (longContexts s !! model = Some tier \/
        longContexts s !! model = None /\ exists key, longContexts s !! key = Some tier) /\
       IsLongContext b = true /\
       InputCost b = (GoInt.to_float64 (InputTokens usage) * Input tier)%float /\
       OutputCost b = (GoInt.to_float64 (OutputTokens usage) * Output tier)%float) /\
  (GoInt.in_range (InputTokens usage + CacheCreateTokens usage) ->
   GoInt.in_range (InputTokens usage + CacheCreateTokens usage + CacheReadTokens usage) ->
   totalInput usage =
     InputTokens usage + CacheCreateTokens usage + CacheReadTokens usage).
Proof.
  intros Hlower Hm Hne Hord b entry.
  assert (model <> EmptyString) as Hmodel.
  { intros ->. unfold carries_1m in Hm. rewrite Hlower in Hm. discriminate. }
  assert (b = CalculateCost (Some s) ordP ordL model usage) as Hb by done.
  rewrite CalculateCost_priced in Hb by auto.
  assert (totalInput usage <= 200000 ->
          IsLongContext b = false /\
          InputCost b = (GoInt.to_float64 (InputTokens usage) * InputCostPerToken entry)%float /\
          OutputCost b = (GoInt.to_float64 (OutputTokens usage) * OutputCostPerToken entry)%float)
    as Hbelow.
  { intros Hle. rewrite (longContextTier_below s ordL model usage Hle) in Hb.
    by rewrite Hb. }
  assert (200000 < totalInput usage ->
     exists tier,
       (longContexts s !! model = Some tier \/
        longContexts s !! model = None /\ exists key, longContexts s !! key = Some tier) /\
       IsLongContext b = true /\
       InputCost b = (GoInt.to_float64 (InputTokens usage) * Input tier)%float /\
       OutputCost b = (GoInt.to_float64 (OutputTokens usage) * Output tier)%float)
    as Habove.
  { intros Hgt.
    destruct (longContextTier_above s ordL model usage Hm Hne Hord Hgt)
      as (tier & Htier & Hwhich).
    exists tier. rewrite Htier in Hb. by rewrite Hb. }
  split; [|split; [done|split; [done|apply totalInput_exact]]].
  split.
  - intros Hlong. destruct (Z.le_gt_cases (totalInput usage) 200000) as [Hle|Hgt]; [|lia].
    destruct (Hbelow Hle) as [Hf _]. congruence.
  - intros Hgt. by destruct (Habove Hgt) as (tier & _ & Ht & _).
Qed.

(** *** Name resolution *)

Lemma stripRegionPrefix_strip_region name :
  stripRegionPrefix name = strip_region name.
Proof. reflexivity. Qed.

Lemma TrimPrefix_strip_provider name :
  TrimPrefix name "anthropic." = strip_provider name.
Proof. reflexivity. Qed.

Lemma getPricing_scan_find pairs target :
  getPricing_scan pairs target =
    match List.find (fun kv => scan_match target kv.1) pairs with
    | Some kv => (Some kv.2, true)
    | None => (None, false)
    end.
Proof.
  induction pairs as [|[key entry] pairs IH]; simpl; [done|].
  unfold scan_match at 1. simpl.
  by destruct (Contains (normalizeName key) target || Contains target (normalizeName key)).
Qed.

Lemma scan_hits_iff {V} (m : gmap string V) ord target :
  range_order m ord ->
  is_Some (List.find (fun kv => scan_match target kv.1) (go_range m ord)) <->
  exists key v, m !! key = Some v /\ scan_match target key = true.
Proof.
  intros [_ Hord]. split.
  - intros [[key v] Hfind]. apply find_some in Hfind as [Hin Hm].
    apply list_elem_of_In, elem_of_go_range in Hin as [_ Hk]. by exists key, v.
  - intros (key & v & Hk & Hm).
    destruct (List.find _ _) as [kv|] eqn:Hfind; [by exists kv|].
    exfalso. eapply find_none with (x := (key, v)) in Hfind.
    + simpl in Hfind. congruence.
    + apply list_elem_of_In, elem_of_go_range. split; [|done]. apply Hord. by exists v.
Qed.

(** C2. For a non-empty model name, resolution tries in order: the name
    itself as a key; for the name gpt-5-codex, the key gpt-5; the name
    without its region prefix (us., eu. or apac., recognised on the
    lower-cased name); that name without the provider prefix anthropic.;
    the normalized name in the normalized index; and the scan for a key
    whose normalized form contains the normalized name or is contained in
    it. The first hit decides, and with no hit the result is not-found,
    which is a value and not an error. Under a visiting order of the
    table, the scan hits exactly when some key of the table matches. *)
Theorem resolution_order s ord model :
  model <> EmptyString ->
  getPricing s ord model = resolve_by_steps s ord model /\
  (first_hit (resolution_steps s ord model) = None ->
   getPricing s ord model = (None, false)) /\
  (forall entry, first_hit (resolution_steps s ord model) = Some entry ->
   getPricing s ord model = (entry, true)) /\
  (range_order (pricingMap s) ord ->
   (is_Some (List.find (fun kv => scan_match (normalizeName model) kv.1)
                       (go_range (pricingMap s) ord)) <->
    exists key entry, pricingMap s !! key = Some entry /\
                      scan_match (normalizeName model) key = true)).
Proof.
  intros Hne.
  assert (getPricing s ord model = resolve_by_steps s ord model) as Heq.
  { unfold getPricing, resolve_by_steps, resolution_steps, keyed_steps, scan_step.
    apply String.eqb_neq in Hne. rewrite Hne.
    rewrite stripRegionPrefix_strip_region, TrimPrefix_strip_provider.
    destruct (pricingMap s !! model) as [e1|]; simpl; [done|].
    destruct (if String.eqb model "gpt-5-codex" then pricingMap s !! "gpt-5"%string else None)
      as [e2|] eqn:E2.
    - destruct (String.eqb model "gpt-5-codex"); [|done]. by rewrite E2.
    - assert ((if String.eqb model "gpt-5-codex"
               then Some <$> pricingMap s !! "gpt-5"%string else None) = None) as ->.
      { destruct (String.eqb model "gpt-5-codex"); [|done]. by rewrite E2. }
      destruct (pricingMap s !! strip_region model) as [e3|]; simpl; [done|].
      destruct (pricingMap s !! strip_provider (strip_region model)) as [e4|]; simpl; [done|].
      destruct (normalized s !! normalizeName model) as [key|]; simpl; [done|].
      rewrite getPricing_scan_find.
      by destruct (List.find _ _) as [[k e]|]. }
  split; [done|]. split; [|split].
  - intros Hnone. rewrite Heq. unfold resolve_by_steps. by rewrite Hnone.
  - intros entry Hhit. rewrite Heq. unfold resolve_by_steps. by rewrite Hhit.
  - apply scan_hits_iff.
Qed.

(** *** Construction of the service *)

Lemma float_zero_not_positive (x : float) :
  PrimFloat.eqb x 0 = true -> PrimFloat.ltb 0 x = false.
Proof.
  rewrite FloatAxioms.eqb_spec, FloatAxioms.ltb_spec.
  destruct (Prim2SF x) as [sx|sx| |sx mx ex]; try destruct sx; vm_compute; congruence.
Qed.

Lemma ensureCachePricing_creation_derived entry :
  PrimFloat.eqb (CacheCreationInputTokenCost entry) 0 = true ->
  PrimFloat.ltb 0 (InputCostPerToken entry) = true ->
  CacheCreationInputTokenCost (ensureCachePricing entry) =
    (InputCostPerToken entry * 1.25)%float.
Proof. intros H1 H2. unfold ensureCachePricing. simpl. by rewrite H1, H2. Qed.

Lemma ensureCachePricing_read_derived entry :
  PrimFloat.eqb (CacheReadInputTokenCost entry) 0 = true ->
  PrimFloat.ltb 0 (InputCostPerToken entry) = true ->
  CacheReadInputTokenCost (ensureCachePricing entry) =
    (InputCostPerToken entry * 0.1)%float.
Proof. intros H1 H2. unfold ensureCachePricing. simpl. by rewrite H1, H2. Qed.

Lemma ensureCachePricing_explicit entry :
  PrimFloat.eqb (CacheCreationInputTokenCost entry) 0 = false ->
  PrimFloat.eqb (CacheReadInputTokenCost entry) 0 = false ->
  ensureCachePricing entry = entry.
Proof.
  intros H1 H2. destruct entry. unfold ensureCachePricing. simpl in *.
  by rewrite H1, H2.
Qed.

Lemma ensureCachePricing_not_positive entry :
  PrimFloat.ltb 0 (InputCostPerToken entry) = false ->
  ensureCachePricing entry = entry.
Proof.
  intros H. destruct entry. unfold ensureCachePricing. simpl in *.
  by rewrite H, !andb_false_r.
Qed.

Lemma ensureCachePricing_other_fields entry :
  let stored := ensureCachePricing entry in
  InputCostPerToken stored = InputCostPerToken entry /\
  OutputCostPerToken stored = OutputCostPerToken entry /\
  CacheCreationInputTokenCostAbove1Hr stored = CacheCreationInputTokenCostAbove1Hr entry /\
  CacheCreationInputTokenCostAbove200 stored = CacheCreationInputTokenCostAbove200 entry /\
  InputCostPerTokenAbove200k stored = InputCostPerTokenAbove200k entry /\
  InputCostPerTokenAbove128k stored = InputCostPerTokenAbove128k entry /\
  OutputCostPerTokenAbove200k stored = OutputCostPerTokenAbove200k entry /\
  (PrimFloat.eqb (CacheCreationInputTokenCost entry) 0 = false ->
   CacheCreationInputTokenCost stored = CacheCreationInputTokenCost entry) /\
  (PrimFloat.eqb (CacheReadInputTokenCost entry) 0 = false ->
   CacheReadInputTokenCost stored = CacheReadInputTokenCost entry).
Proof.
  unfold ensureCachePricing. simpl. repeat split; intros H; by rewrite H.
Qed.

(** The loop of [NewServiceFromData], from any pair of maps. *)
Lemma NewServiceFromData_loop raw ord pricing norms :
  let result := foldl (NewServiceFromData_step raw) (pricing, norms) ord in
  (forall key,
     result.1 !! key =
       match (if bool_decide (key ∈ ord) then ensureCachePricing <$> raw !! key else None) with
       | Some entry => Some entry
       | None => pricing !! key
       end) /\
  (forall norm,
     result.2 !! norm =
       match norms !! norm with
       | Some key => Some key
       | None =>
           List.find (fun key => bool_decide (is_Some (raw !! key))
                                 && String.eqb (normalizeName key) norm) ord
       end).
Proof.
  revert pricing norms. induction ord as [|x ord IH]; intros pricing norms; simpl.
  { split; [done|]. intros norm. by destruct (norms !! norm). }
  unfold NewServiceFromData_step at 2 4. simpl.
  destruct (raw !! x) as [entry|] eqn:Hx.
  - rewrite (bool_decide_eq_true_2 (is_Some (Some entry))) by eauto. simpl.
    destruct (norms !! normalizeName x) as [k0|] eqn:Hn.
    + destruct (IH (<[x:=ensureCachePricing entry]> pricing) norms) as [IHp IHn].
      split.
      * intros key. rewrite IHp. destruct (decide (key = x)) as [->|Hne].
        -- rewrite Hx, lookup_insert_eq. rewrite (bool_decide_eq_true_2 (x ∈ x :: ord)) by left.
           simpl. by destruct (bool_decide (x ∈ ord)).
        -- rewrite lookup_insert_ne by done.
           rewrite (bool_decide_ext (key ∈ x :: ord) (key ∈ ord)); [done|].
           rewrite elem_of_cons. split; [by intros [?|?]|by right].
      * intros norm. rewrite IHn. destruct (norms !! norm) as [k1|] eqn:Hn1; [done|].
        destruct (String.eqb (normalizeName x) norm) eqn:Heq; [|done].
        apply String.eqb_eq in Heq. congruence.
    + destruct (IH (<[x:=ensureCachePricing entry]> pricing) (<[normalizeName x:=x]> norms))
        as [IHp IHn].
      split.
      * intros key. rewrite IHp. destruct (decide (key = x)) as [->|Hne].
        -- rewrite Hx, lookup_insert_eq. rewrite (bool_decide_eq_true_2 (x ∈ x :: ord)) by left.
           simpl. by destruct (bool_decide (x ∈ ord)).
        -- rewrite lookup_insert_ne by done.
           rewrite (bool_decide_ext (key ∈ x :: ord) (key ∈ ord)); [done|].
           rewrite elem_of_cons. split; [by intros [?|?]|by right].
      * intros norm. rewrite IHn.
        destruct (String.eqb (normalizeName x) norm) eqn:Heq.
        -- apply String.eqb_eq in Heq. subst norm. by rewrite lookup_insert_eq, Hn.
        -- apply String.eqb_neq in Heq. by rewrite lookup_insert_ne.
  - rewrite (bool_decide_eq_false_2 (is_Some None)) by (by intros [? ?]). simpl.
    destruct (IH pricing norms) as [IHp IHn]. split; [|done].
    intros key. rewrite IHp. destruct (decide (key = x)) as [->|Hne].
    + rewrite Hx. rewrite (bool_decide_eq_true_2 (x ∈ x :: ord)) by left.
      simpl. by destruct (bool_decide (x ∈ ord)).
    + rewrite (bool_decide_ext (key ∈ x :: ord) (key ∈ ord)); [done|].
      rewrite elem_of_cons. split; [by intros [?|?]|by right].
Qed.

Lemma find_ext_in {A} (f g : A -> bool) (l : list A) :
  (forall x, x ∈ l -> f x = g x) -> List.find f l = List.find g l.
Proof.
  induction l as [|x l IH]; intros H; simpl; [done|].
  rewrite <- (H x) by left. destruct (f x); [done|].
  apply IH. intros y Hy. apply H. by right.
Qed.

(** What [NewServiceFromData] builds from a table that parses. *)
Lemma NewServiceFromData_built ord data raw :
  json_Unmarshal data = Some raw ->
  range_order raw ord ->
  exists s,
    NewServiceFromData ord data = Some s /\
    pricingMap s = ensureCachePricing <$> raw /\
    (forall norm, normalized s !! norm = first_seen ord norm) /\
    ephemeral1h s = buildEphemeral1hPricing /\
    longContexts s = buildLongContextPricing.
Proof.
  intros Hparse [Hnodup Hord]. unfold NewServiceFromData. rewrite Hparse.
  pose proof (NewServiceFromData_loop raw ord ∅ ∅) as [Hp Hn].
  destruct (foldl (NewServiceFromData_step raw) (∅, ∅) ord) as [pricing norms].
  simpl in *. eexists. split; [done|]. simpl. repeat split.
  - apply map_eq. intros key. rewrite Hp, lookup_fmap, lookup_empty.
    destruct (decide (key ∈ ord)) as [Hin|Hnin].
    + rewrite bool_decide_eq_true_2 by done. by destruct (raw !! key).
    + rewrite bool_decide_eq_false_2 by done.
      destruct (raw !! key) as [entry|] eqn:Hk; [|done].
      exfalso. apply Hnin, Hord. by eexists.
  - intros norm. rewrite Hn, lookup_empty. unfold first_seen.
    apply find_ext_in. intros key Hin.
    rewrite bool_decide_eq_true_2; [done|]. by apply Hord.
Qed.

Lemma getPricing_scan_stored (m : gmap string PricingEntry) ord target entry :
  (getPricing_scan (go_range m ord) target).1 = Some entry ->
  exists key, m !! key = Some entry.
Proof.
  rewrite getPricing_scan_find.
  destruct (List.find _ _) as [[key e]|] eqn:Hfind; simpl; [|done].
  intros [= ->]. apply find_some in Hfind as [Hin _].
  apply list_elem_of_In, elem_of_go_range in Hin as [_ Hk]. by exists key.
Qed.

(** An entry that [getPricing] returns is an entry of the pricing table. *)
Lemma getPricing_entry_stored s ord model entry :
  (getPricing s ord model).1 = Some entry ->
  exists key, pricingMap s !! key = Some entry.
Proof.
  unfold getPricing. destruct (String.eqb model ""); simpl; [done|].
  destruct (pricingMap s !! model) as [e1|] eqn:E1; simpl.
  { intros [= ->]. eauto. }
  destruct (String.eqb model "gpt-5-codex").
  - destruct (pricingMap s !! "gpt-5"%string) as [e2|] eqn:E2; simpl.
    { intros [= ->]. eauto. }
    destruct (pricingMap s !! stripRegionPrefix model) as [e3|] eqn:E3; simpl.
    { intros [= ->]. eauto. }
    destruct (pricingMap s !! TrimPrefix (stripRegionPrefix model) "anthropic.")
      as [e4|] eqn:E4; simpl.
    { intros [= ->]. eauto. }
    destruct (normalized s !! normalizeName model) as [key|]; simpl; [eauto|].
    apply getPricing_scan_stored.
  - destruct (pricingMap s !! stripRegionPrefix model) as [e3|] eqn:E3; simpl.
    { intros [= ->]. eauto. }
    destruct (pricingMap s !! TrimPrefix (stripRegionPrefix model) "anthropic.")
      as [e4|] eqn:E4; simpl.
    { intros [= ->]. eauto. }
    destruct (normalized s !! normalizeName model) as [key|]; simpl; [eauto|].
    apply getPricing_scan_stored.
Qed.

(** C3. A table that parses is stored entry by entry with its cache
    prices ensured: a zero cache-creation price beside a positive input
    price becomes the input price times 1.25, a zero cache-read price
    beside a positive input price becomes the input price times 0.1; an
    entry whose two cache prices are non-zero, and an entry whose input
    price is zero, are stored as parsed. [CalculateCost] derives nothing
    again: on any service its five-minute and cache-read costs multiply
    the token counts by the prices of the stored entry that resolution
    returned. *)
Theorem cache_pricing_derived_at_construction ord data raw :
  json_Unmarshal data = Some raw ->
  range_order raw ord ->
  exists s,
    NewServiceFromData ord data = Some s /\
    (forall key, pricingMap s !! key = ensureCachePricing <$> raw !! key) /\
    (forall key entry,
       raw !! key = Some entry ->
       exists stored,
         pricingMap s !! key = Some stored /\
         (PrimFloat.eqb (CacheCreationInputTokenCost entry) 0 = true ->
          PrimFloat.ltb 0 (InputCostPerToken entry) = true ->
          CacheCreationInputTokenCost stored = (InputCostPerToken entry * 1.25)%float) /\
         (PrimFloat.eqb (CacheReadInputTokenCost entry) 0 = true ->
          PrimFloat.ltb 0 (InputCostPerToken entry) = true ->
          CacheReadInputTokenCost stored = (InputCostPerToken entry * 0.1)%float) /\
         (PrimFloat.eqb (CacheCreationInputTokenCost entry) 0 = false ->
          PrimFloat.eqb (CacheReadInputTokenCost entry) 0 = false ->
          stored = entry) /\
         (PrimFloat.eqb (InputCostPerToken entry) 0 = true -> stored = entry)) /\
    (forall (s' : Service) ordP ordL model usage stored,
       model <> EmptyString ->
       (getPricing s' ordP model).1 = Some stored ->
       let b := CalculateCost (Some s') ordP ordL model usage in
       (exists key, pricingMap s' !! key = Some stored) /\
       Ephemeral5mCost b =
         (GoInt.to_float64 (resolveCacheTokens usage).1
          * CacheCreationInputTokenCost stored)%float /\
       CacheReadCost b =
         (GoInt.to_float64 (CacheReadTokens usage) * CacheReadInputTokenCost stored)%float).
Proof.
  intros Hparse Hord.
  destruct (NewServiceFromData_built ord data raw Hparse Hord)
    as (s & Hs & Hpricing & _).
  exists s. split; [done|]. split; [|split].
  - intros key. by rewrite Hpricing, lookup_fmap.
  - intros key entry Hkey. exists (ensureCachePricing entry).
    split; [by rewrite Hpricing, lookup_fmap, Hkey|].
    split; [apply ensureCachePricing_creation_derived|].
    split; [apply ensureCachePricing_read_derived|].
    split; [apply ensureCachePricing_explicit|].
    intros Hzero. apply ensureCachePricing_not_positive.
    by apply float_zero_not_positive.
  - intros s' ordP ordL model usage stored Hne Hstored b.
    split; [by eapply getPricing_entry_stored|].
    unfold b. rewrite CalculateCost_priced; [|done|left; rewrite Hstored; eauto].
    simpl. by rewrite Hstored.
Qed.

(** *** The split of the cache-creation tokens *)


Lemma resolveCacheTokens_detail usage detail :
  CacheCreation usage = Some detail ->
  let five := Ephemeral5mTokens detail in
  let one := Ephemeral1hTokens detail in
  let remaining := GoInt.sub (GoInt.sub (CacheCreateTokens usage) five) one in
  resolveCacheTokens usage =
    (Z.max 0 (if 0 <? remaining then GoInt.add five remaining else five),
     Z.max 0 one).
Proof.
  intros H five one remaining. unfold resolveCacheTokens. rewrite H.
  fold five one remaining. f_equal.
  - destruct (0 <? remaining).
    + destruct (Z.ltb_spec (GoInt.add five remaining) 0); lia.
    + destruct (Z.ltb_spec five 0); lia.
  - destruct (Z.ltb_spec one 0); lia.
Qed.

Lemma resolveCacheTokens_exact usage detail :
  CacheCreation usage = Some detail ->
  let five := Ephemeral5mTokens detail in
  let one := Ephemeral1hTokens detail in
  let total := CacheCreateTokens usage in
  GoInt.in_range (total - five) ->
  GoInt.in_range (total - five - one) ->
  GoInt.in_range (five + Z.max 0 (total - five - one)) ->
  resolveCacheTokens usage =
    (Z.max 0 (five + Z.max 0 (total - five - one)), Z.max 0 one).
Proof.
  intros H five one total H1 H2 H3.
  rewrite (resolveCacheTokens_detail usage detail H). fold five one total.
  unfold GoInt.sub, GoInt.add. rewrite (GoInt_wrap_in_range _ H1).
  rewrite (GoInt_wrap_in_range _ H2). f_equal.
  destruct (Z.ltb_spec 0 (total - five - one)) as [Hpos|Hneg].
  - rewrite Z.max_r in H3 by lia. rewrite (GoInt_wrap_in_range _ H3). lia.
  - lia.
Qed.


(** *** The has-pricing flag *)

Lemma first_seen_in ord norm key :
  first_seen ord norm = Some key -> key ∈ ord /\ normalizeName key = norm.
Proof.
  unfold first_seen. intros [Hin Heq]%find_some.
  split; [by apply list_elem_of_In|by apply String.eqb_eq].
Qed.

Lemma NewServiceFromData_wf ord data raw s :
  json_Unmarshal data = Some raw ->
  range_order raw ord ->
  NewServiceFromData ord data = Some s ->
  service_wf s.
Proof.
  intros Hparse Hord Hs.
  destruct (NewServiceFromData_built ord data raw Hparse Hord)
    as (s' & Hs' & Hpricing & Hnorm & _).
  assert (s' = s) as -> by congruence.
  intros norm key Hkey. rewrite Hnorm in Hkey.
  apply first_seen_in in Hkey as [Hin _].
  rewrite Hpricing, lookup_fmap. apply fmap_is_Some. by apply Hord.
Qed.

Lemma getPricing_scan_found pairs target :
  (getPricing_scan pairs target).2 = true <-> is_Some (getPricing_scan pairs target).1.
Proof.
  rewrite getPricing_scan_find. destruct (List.find _ _) as [kv|]; simpl.
  - split; eauto.
  - split; [done|by intros [? ?]].
Qed.

(** On a constructed service the found flag of [getPricing] says that an
    entry is returned. *)
Lemma getPricing_found_iff s ord model :
  service_wf s ->
  (getPricing s ord model).2 = true <-> is_Some (getPricing s ord model).1.
Proof.
  intros Hwf. rewrite (surjective_pairing (getPricing s ord model)).
  unfold getPricing.
  destruct (String.eqb model ""); simpl; [split; [done|by intros [? ?]]|].
  destruct (pricingMap s !! model); simpl; [split; eauto|].
  destruct (if String.eqb model "gpt-5-codex" then pricingMap s !! "gpt-5"%string else None);
    simpl; [split; eauto|].
  destruct (pricingMap s !! stripRegionPrefix model); simpl; [split; eauto|].
  destruct (pricingMap s !! TrimPrefix (stripRegionPrefix model) "anthropic.");
    simpl; [split; eauto|].
  destruct (normalized s !! normalizeName model) as [key|] eqn:Hkey; simpl.
  - split; [|done]. intros _. by eapply Hwf.
  - apply getPricing_scan_found.
Qed.

(** C5. For a non-empty model on a constructed service: when resolution
    returns no entry and the lower-cased name does not contain the 1M
    marker, the result is the zero breakdown, whose has-pricing flag is
    false; in every case the has-pricing flag is true exactly when an
    entry was resolved or the total cost is strictly positive. *)
Theorem has_pricing_flag s ordP ordL model usage :
  service_wf s ->
  model <> EmptyString ->
  let entry := (getPricing s ordP model).1 in
  let b := CalculateCost (Some s) ordP ordL model usage in
  (entry = None -> carries_1m model = false ->
   b = zeroCostBreakdown /\ HasPricing b = false) /\
  (is_Some entry \/ carries_1m model = true ->
   (HasPricing b = true <-> is_Some entry \/ PrimFloat.ltb 0 (TotalCost b) = true)) /\
  (HasPricing b = true <-> is_Some entry \/ PrimFloat.ltb 0 (TotalCost b) = true).
Proof.
  clear json_Unmarshal. intros Hwf Hne entry b.
  pose proof (getPricing_found_iff s ordP model Hwf) as Hfound. fold entry in Hfound.
  assert (entry = None -> carries_1m model = false ->
          b = zeroCostBreakdown /\ HasPricing b = false) as Hzero.
  { intros Hentry Hm. unfold b. rewrite CalculateCost_unpriced by done.
    destruct (getPricing s ordP model).2 eqn:Hflag.
    - exfalso. destruct Hfound as [Hfound _]. destruct (Hfound eq_refl) as [e He].
      congruence.
    - done. }
  assert (is_Some entry \/ carries_1m model = true ->
          (HasPricing b = true <->
           is_Some entry \/ PrimFloat.ltb 0 (TotalCost b) = true)) as Hpriced.
  { intros Hcase. unfold b. rewrite CalculateCost_priced by done. simpl.
    rewrite orb_true_iff, Hfound. tauto. }
  split; [done|]. split; [done|].
  destruct entry as [e|] eqn:He; [apply Hpriced; eauto|].
  destruct (carries_1m model) eqn:Hm; [apply Hpriced; eauto|].
  destruct (Hzero eq_refl eq_refl) as [Hb Hflag]. rewrite Hflag, Hb. simpl.
  split; [done|]. intros [[? ?]|?]; done.
Qed.

(** *** Resolving a name twice *)

Lemma first_hit_app {A} (steps steps' : list (option A)) :
  first_hit (steps ++ steps') =
    match first_hit steps with
    | Some a => Some a
    | None => first_hit steps'
    end.
Proof. induction steps as [|[a|] steps IH]; simpl; [done|done|apply IH]. Qed.

Lemma getPricing_by_steps s ord model :
  getPricing s ord model =
    if String.eqb model "" then (None, false) else resolve_by_steps s ord model.
Proof.
  destruct (String.eqb model "") eqn:E.
  - unfold getPricing. by rewrite E.
  - apply String.eqb_neq in E. by apply resolution_order.
Qed.

Lemma scan_step_found s ord1 ord2 model :
  range_order (pricingMap s) ord1 ->
  range_order (pricingMap s) ord2 ->
  is_Some (scan_step s ord1 model) -> is_Some (scan_step s ord2 model).
Proof.
  intros H1 H2. unfold scan_step. rewrite !fmap_is_Some.
  rewrite (scan_hits_iff _ _ _ H1), (scan_hits_iff _ _ _ H2). done.
Qed.

Lemma scan_step_entry s ord model hit :
  scan_step s ord model = Some hit ->
  exists key entry,
    hit = Some entry /\ pricingMap s !! key = Some entry /\
    scan_match (normalizeName model) key = true.
Proof.
  unfold scan_step. destruct (List.find _ _) as [[key entry]|] eqn:Hfind; [|done].
  intros [= <-]. apply find_some in Hfind as [Hin Hm].
  apply list_elem_of_In, elem_of_go_range in Hin as [_ Hk]. by exists key, entry.
Qed.

(** C6, as the code has it. Two resolutions of a name against the same
    service, each with its own visiting order of the table, agree on the
    found flag. They return the same entry when one of the five keyed
    lookups hits, and when all the keys that the scan matches carry the
    same entry, as is the case when at most one key matches. *)
Theorem resolution_repeatable s ord1 ord2 model :
  range_order (pricingMap s) ord1 ->
  range_order (pricingMap s) ord2 ->
  (getPricing s ord1 model).2 = (getPricing s ord2 model).2 /\
  (is_Some (first_hit (keyed_steps s model)) ->
   getPricing s ord1 model = getPricing s ord2 model) /\
  ((forall key1 key2 entry1 entry2,
      pricingMap s !! key1 = Some entry1 ->
      pricingMap s !! key2 = Some entry2 ->
      scan_match (normalizeName model) key1 = true ->
      scan_match (normalizeName model) key2 = true ->
      entry1 = entry2) ->
   getPricing s ord1 model = getPricing s ord2 model).
Proof.
  intros H1 H2. rewrite !getPricing_by_steps.
  destruct (String.eqb model ""); [done|].
  unfold resolve_by_steps, resolution_steps. rewrite !first_hit_app.
  destruct (first_hit (keyed_steps s model)) as [hit|]; simpl.
  { split; [done|]. split; done. }
  pose proof (scan_step_found s ord1 ord2 model H1 H2) as H12.
  pose proof (scan_step_found s ord2 ord1 model H2 H1) as H21.
  destruct (scan_step s ord1 model) as [hit1|] eqn:Hs1;
    destruct (scan_step s ord2 model) as [hit2|] eqn:Hs2; simpl.
  - split; [done|]. split; [by intros [? ?]|]. intros Hsame.
    apply scan_step_entry in Hs1 as (k1 & e1 & -> & Hk1 & Hm1).
    apply scan_step_entry in Hs2 as (k2 & e2 & -> & Hk2 & Hm2).
    by rewrite (Hsame k1 k2 e1 e2).
  - exfalso. destruct H12 as [? ?]; [eauto|done].
  - exfalso. destruct H21 as [? ?]; [eauto|done].
  - done.
Qed.

(** *** Constructing a service twice *)

Lemma first_seen_is_Some ord norm :
  is_Some (first_seen ord norm) <-> exists key, key ∈ ord /\ normalizeName key = norm.
Proof.
  split.
  - intros [key Hkey]. exists key. by apply first_seen_in.
  - intros (key & Hin & Heq). unfold first_seen.
    destruct (List.find _ ord) as [k|] eqn:Hfind; [by exists k|].
    exfalso. eapply find_none with (x := key) in Hfind; [|by apply list_elem_of_In].
    apply String.eqb_neq in Hfind. done.
Qed.






(** *** The one-hour rate *)

(** C8, as the code has it. The one-hour rate of a model is its entry in
    the one-hour table when it has one; otherwise it is 3e-5 when the
    lower-cased name contains opus, else 6e-6 when it contains sonnet,
    else 1.6e-6 when it contains haiku, else 0. So a name absent from the
    table that contains sonnet and not opus has the rate 0.000006. *)
Theorem ephemeral_1h_rate s model :
  let name := ToLower model in
  let rate := getEphemeral1hPricing s model in
  (forall price, ephemeral1h s !! model = Some price -> rate = price) /\
  (ephemeral1h s !! model = None ->
   (Contains name "opus" = true -> rate = 0.00003%float) /\
   (Contains name "opus" = false -> Contains name "sonnet" = true ->
    rate = 0.000006%float) /\
   (Contains name "opus" = false -> Contains name "sonnet" = false ->
    Contains name "haiku" = true -> rate = 0.0000016%float) /\
   (Contains name "opus" = false -> Contains name "sonnet" = false ->
    Contains name "haiku" = false -> rate = 0%float)).
Proof.
  intros name rate. unfold rate, getEphemeral1hPricing. fold name. split.
  - by intros price ->.
  - intros ->. repeat split.
    + by intros ->.
    + by intros -> ->.
    + by intros -> -> ->.
    + by intros -> -> ->.
Qed.

(** *** The tiered prices *)

Lemma without_tiers_ensureCachePricing entry1 entry2 :
  without_tiers entry1 = without_tiers entry2 ->
  without_tiers (ensureCachePricing entry1) = without_tiers (ensureCachePricing entry2).
Proof.
  destruct entry1, entry2. unfold without_tiers, ensureCachePricing. simpl.
  by intros [= -> -> -> ->].
Qed.

Lemma same_but_tiers_lookup s1 s2 key :
  same_but_tiers s1 s2 ->
  match pricingMap s1 !! key, pricingMap s2 !! key with
  | Some entry1, Some entry2 => without_tiers entry1 = without_tiers entry2
  | None, None => True
  | _, _ => False
  end.
Proof.
  intros [Hp _]. specialize (Hp key).
  destruct (pricingMap s1 !! key), (pricingMap s2 !! key); simpl in Hp;
    first [done|congruence].
Qed.

Lemma getPricing_scan_same s1 s2 ord target :
  same_but_tiers s1 s2 ->
  same_result (getPricing_scan (go_range (pricingMap s1) ord) target)
              (getPricing_scan (go_range (pricingMap s2) ord) target).
Proof.
  intros Hsame. unfold go_range. induction ord as [|key ord IH]; simpl; [done|].
  pose proof (same_but_tiers_lookup s1 s2 key Hsame) as Hkey.
  destruct (pricingMap s1 !! key) as [e1|], (pricingMap s2 !! key) as [e2|];
    simpl; try done.
  destruct (Contains (normalizeName key) target || Contains target (normalizeName key));
    [|done].
  split; simpl; [by rewrite Hkey|done].
Qed.

Lemma getPricing_same s1 s2 ord model :
  same_but_tiers s1 s2 ->
  same_result (getPricing s1 ord model) (getPricing s2 ord model).
Proof.
  intros Hsame. unfold getPricing.
  destruct (String.eqb model ""); [done|].
  pose proof (same_but_tiers_lookup s1 s2 model Hsame) as H1.
  destruct (pricingMap s1 !! model), (pricingMap s2 !! model); try done.
  { split; simpl; [by rewrite H1|done]. }
  assert (same_result
            (match (if String.eqb model "gpt-5-codex"
                    then pricingMap s1 !! "gpt-5"%string else None) with
             | Some e => (Some e, true) | None => (None, false) end)
            (match (if String.eqb model "gpt-5-codex"
                    then pricingMap s2 !! "gpt-5"%string else None) with
             | Some e => (Some e, true) | None => (None, false) end)) as H2.
  { destruct (String.eqb model "gpt-5-codex"); [|done].
    pose proof (same_but_tiers_lookup s1 s2 "gpt-5" Hsame) as H2.
    destruct (pricingMap s1 !! "gpt-5"%string), (pricingMap s2 !! "gpt-5"%string);
      try done.
    split; simpl; [by rewrite H2|done]. }
  destruct (if String.eqb model "gpt-5-codex" then pricingMap s1 !! "gpt-5"%string else None),
    (if String.eqb model "gpt-5-codex" then pricingMap s2 !! "gpt-5"%string else None);
    try done; try (by destruct H2 as [_ ?]).
  pose proof (same_but_tiers_lookup s1 s2 (stripRegionPrefix model) Hsame) as H3.
  destruct (pricingMap s1 !! stripRegionPrefix model),
    (pricingMap s2 !! stripRegionPrefix model); try done.
  { split; simpl; [by rewrite H3|done]. }
  pose proof (same_but_tiers_lookup s1 s2
                (TrimPrefix (stripRegionPrefix model) "anthropic.") Hsame) as H4.
  destruct (pricingMap s1 !! TrimPrefix (stripRegionPrefix model) "anthropic."),
    (pricingMap s2 !! TrimPrefix (stripRegionPrefix model) "anthropic."); try done.
  { split; simpl; [by rewrite H4|done]. }
  destruct Hsame as (Hp & Hn & He & Hl). rewrite <- Hn.
  destruct (normalized s1 !! normalizeName model) as [key|].
  { split; simpl; [apply Hp|done]. }
  apply getPricing_scan_same. by repeat split.
Qed.

Lemma longContextTier_same s1 s2 ord model usage :
  longContexts s1 = longContexts s2 ->
  longContextTier s1 ord model usage = longContextTier s2 ord model usage.
Proof. intros H. unfold longContextTier. by rewrite H. Qed.

Lemma getEphemeral1hPricing_same s1 s2 model :
  ephemeral1h s1 = ephemeral1h s2 ->
  getEphemeral1hPricing s1 model = getEphemeral1hPricing s2 model.
Proof. intros H. unfold getEphemeral1hPricing. by rewrite H. Qed.

Lemma without_tiers_fields entry1 entry2 :
  without_tiers entry1 = without_tiers entry2 ->
  InputCostPerToken entry1 = InputCostPerToken entry2 /\
  OutputCostPerToken entry1 = OutputCostPerToken entry2 /\
  CacheCreationInputTokenCost entry1 = CacheCreationInputTokenCost entry2 /\
  CacheReadInputTokenCost entry1 = CacheReadInputTokenCost entry2.
Proof. unfold without_tiers. by intros [= -> -> -> ->]. Qed.

Lemma CalculateCost_same s1 s2 ordP ordL model usage :
  same_but_tiers s1 s2 ->
  CalculateCost (Some s1) ordP ordL model usage =
  CalculateCost (Some s2) ordP ordL model usage.
Proof.
  intros Hsame. pose proof (getPricing_same s1 s2 ordP model Hsame) as [Hentry Hflag].
  destruct Hsame as (_ & _ & He & Hl).
  unfold CalculateCost. destruct (String.eqb model ""); [done|].
  rewrite (longContextTier_same s1 s2 ordL model usage Hl).
  rewrite (getEphemeral1hPricing_same s1 s2 model He).
  destruct (getPricing s1 ordP model) as [entry1 found1].
  destruct (getPricing s2 ordP model) as [entry2 found2].
  simpl in Hentry, Hflag. subst found2.
  destruct entry1 as [e1|], entry2 as [e2|]; simpl in Hentry; try done.
  assert (without_tiers e1 = without_tiers e2) as Hw by congruence.
  apply without_tiers_fields in Hw as (Hi & Ho & Hc & Hr).
  rewrite !bool_decide_eq_false_2 by done. simpl.
  destruct (longContextTier s2 ordL model usage) as [tier useLong].
  destruct (resolveCacheTokens usage) as [five one].
  by rewrite Hi, Ho, Hc, Hr.
Qed.

Lemma NewServiceFromData_same_but_tiers ord data1 data2 raw1 raw2 s1 s2 :
  json_Unmarshal data1 = Some raw1 ->
  json_Unmarshal data2 = Some raw2 ->
  without_tiers <$> raw1 = without_tiers <$> raw2 ->
  NewServiceFromData ord data1 = Some s1 ->
  NewServiceFromData ord data2 = Some s2 ->
  same_but_tiers s1 s2.
Proof.
  intros Hparse1 Hparse2 Hraw. unfold NewServiceFromData. rewrite Hparse1, Hparse2.
  pose proof (NewServiceFromData_loop raw1 ord ∅ ∅) as [Hp1 Hn1].
  pose proof (NewServiceFromData_loop raw2 ord ∅ ∅) as [Hp2 Hn2].
  destruct (foldl (NewServiceFromData_step raw1) (∅, ∅) ord) as [pricing1 norms1].
  destruct (foldl (NewServiceFromData_step raw2) (∅, ∅) ord) as [pricing2 norms2].
  simpl in *. intros [= <-] [= <-]. unfold same_but_tiers. simpl.
  assert (forall key,
            match raw1 !! key, raw2 !! key with
            | Some entry1, Some entry2 => without_tiers entry1 = without_tiers entry2
            | None, None => True
            | _, _ => False
            end) as Hkey.
  { intros key. apply (f_equal (fun m => m !! key)) in Hraw.
    rewrite !lookup_fmap in Hraw.
    destruct (raw1 !! key), (raw2 !! key); simpl in Hraw; first [done|congruence]. }
  split; [|split; [|done]].
  - intros key. rewrite Hp1, Hp2. specialize (Hkey key).
    destruct (bool_decide (key ∈ ord)); [|done].
    destruct (raw1 !! key), (raw2 !! key); simpl; try done.
    f_equal. by apply without_tiers_ensureCachePricing.
  - apply map_eq. intros norm. rewrite Hn1, Hn2, lookup_empty.
    apply find_ext_in. intros key _. specialize (Hkey key).
    by destruct (raw1 !! key), (raw2 !! key).
Qed.

(** C10. The five tiered prices of an entry have no part in any cost:
    two services constructed from tables that differ at most in those
    five prices return the same breakdown from [CalculateCost], for every
    model and usage snapshot (the range loops of the two constructions
    and of the two calls visiting the keys in the same orders). *)
Theorem tiered_prices_unused ord data1 data2 raw1 raw2 s1 s2 ordP ordL model usage :
  json_Unmarshal data1 = Some raw1 ->
  json_Unmarshal data2 = Some raw2 ->
  without_tiers <$> raw1 = without_tiers <$> raw2 ->
  NewServiceFromData ord data1 = Some s1 ->
  NewServiceFromData ord data2 = Some s2 ->
  CalculateCost (Some s1) ordP ordL model usage =
  CalculateCost (Some s2) ordP ordL model usage.
Proof.
  intros Hparse1 Hparse2 Hraw Hs1 Hs2. apply CalculateCost_same.
  by apply (NewServiceFromData_same_but_tiers ord data1 data2 raw1 raw2).
Qed.

(** ** Properties of the retry wrapper *)

Lemma ShouldRetry_class resp err :
  (ShouldRetry resp err).1 = retry_class (resp, err).
Proof.
  unfold ShouldRetry, retry_class. simpl.
  destruct (IsNetworkError err); simpl; [by rewrite orb_true_r|].
  rewrite orb_false_r. destruct resp as [resp|]; [|done].
  destruct (IsRateLimitError (Some resp)); [done|].
  by destruct (IsServerError (Some resp)).
Qed.

Lemma effects_app trace trace' : effects (trace ++ trace') = effects trace ++ effects trace'.
Proof. apply List.filter_app. Qed.

Lemma RetryableRequest_loop_O requestFunc providerName attempt lastResp lastErr
    lastErrorType w trace :
  RetryableRequest_loop requestFunc providerName O attempt
    lastResp lastErr lastErrorType (w, trace) =
  ((lastResp, lastErr),
   (w, trace ++ [EvPrintf (LogAllFailed providerName MaxRetryAttempts lastErrorType)])).
Proof. reflexivity. Qed.

Lemma RetryableRequest_loop_S requestFunc providerName remaining attempt lastResp
    lastErr lastErrorType w trace :
  RetryableRequest_loop requestFunc providerName (S remaining) attempt
    lastResp lastErr lastErrorType (w, trace) =
  let o := (requestFunc w).1 in
  let w' := (requestFunc w).2 in
  let trace' :=
    trace ++ [EvPrintf (LogWait providerName RetryInterval attempt);
              EvSleep RetryInterval; EvRequest] in
  if retry_class o
  then RetryableRequest_loop requestFunc providerName remaining (attempt + 1)
         o.1 o.2 (ShouldRetry o.1 o.2).2
         (w', trace' ++ [EvPrintf (LogRetryFailed providerName attempt
                                      (ShouldRetry o.1 o.2).2)])
  else (o, (w', trace' ++ [EvPrintf (LogRetryOk providerName attempt)])).
Proof.
  cbn [RetryableRequest_loop]. unfold bind, call, Printf, Sleep, emit, ret. simpl.
  destruct (requestFunc w) as [[resp err] w']. simpl.
  rewrite <- ShouldRetry_class.
  destruct (ShouldRetry resp err) as [shouldRetry errorType]. simpl.
  destruct shouldRetry; simpl; by rewrite <- !app_assoc.
Qed.

Lemma retry_policy_unfold requestFunc retries w :
  retry_policy requestFunc retries w =
  let o := (requestFunc w).1 in
  let w' := (requestFunc w).2 in
  if retry_class o then
    match retries with
    | O => (o, w', [EvRequest])
    | S retries' =>
        let rest := retry_policy requestFunc retries' w' in
        (rest.1.1, rest.1.2, EvRequest :: EvSleep RetryInterval :: rest.2)
    end
  else (o, w', [EvRequest]).
Proof.
  destruct retries as [|retries]; simpl; destruct (requestFunc w) as [o w']; simpl;
    destruct (retry_class o); try done.
  by destruct (retry_policy requestFunc retries w') as [[o' w''] events].
Qed.

(** The loop with at least one turn left does what the policy does with
    one retry less, after a sleep. *)
Lemma RetryableRequest_loop_policy requestFunc providerName remaining :
  forall attempt lastResp lastErr lastErrorType w trace,
    let run :=
      RetryableRequest_loop requestFunc providerName (S remaining) attempt
        lastResp lastErr lastErrorType (w, trace) in
    let policy := retry_policy requestFunc remaining w in
    run.1 = policy.1.1 /\
    run.2.1 = policy.1.2 /\
    effects run.2.2 = effects trace ++ EvSleep RetryInterval :: policy.2.
Proof.
  induction remaining as [|remaining IH];
    intros attempt lastResp lastErr lastErrorType w trace run policy;
    unfold run, policy; rewrite RetryableRequest_loop_S, retry_policy_unfold;
    cbv zeta; destruct (requestFunc w) as [[resp err] w']; cbn [fst snd];
    destruct (retry_class (resp, err)).
  - rewrite RetryableRequest_loop_O. simpl.
    rewrite !effects_app. simpl. by rewrite !app_nil_r.
  - simpl. rewrite !effects_app. simpl. by rewrite !app_nil_r.
  - match goal with
    | |- context [RetryableRequest_loop ?f ?p (S remaining) ?a ?lr ?le ?lt (?w', ?tr)] =>
        destruct (IH a lr le lt w' tr) as (IH1 & IH2 & IH3)
    end.
    rewrite IH1, IH2, IH3. simpl.
    rewrite !effects_app. simpl. rewrite !app_nil_r, <- app_assoc. done.
  - simpl. rewrite !effects_app. simpl. by rewrite !app_nil_r.
Qed.

Lemma RetryableRequest_unfold requestFunc providerName w trace :
  RetryableRequest requestFunc providerName (w, trace) =
  let o := (requestFunc w).1 in
  let w' := (requestFunc w).2 in
  if retry_class o
  then RetryableRequest_loop requestFunc providerName MaxRetryAttempts 1
         o.1 o.2 (ShouldRetry o.1 o.2).2
         (w', trace ++ [EvRequest;
                        EvPrintf (LogFirstFailed providerName (ShouldRetry o.1 o.2).2)])
  else (o, (w', trace ++ [EvRequest])).
Proof.
  unfold RetryableRequest, bind, call, Printf, emit, ret. cbn [fst snd].
  destruct (requestFunc w) as [[resp err] w']. cbn [fst snd].
  rewrite <- ShouldRetry_class.
  destruct (ShouldRetry resp err) as [shouldRetry errorType]. cbn [fst snd].
  destruct shouldRetry; cbn [negb]; [|done].
  cbn [fst snd]. rewrite <- ?app_assoc. done.
Qed.

(** The wrapper does what the policy says, with [MaxRetryAttempts]
    retries. *)
Lemma RetryableRequest_policy requestFunc providerName w :
  let run := RetryableRequest requestFunc providerName (w, []) in
  let policy := retry_policy requestFunc MaxRetryAttempts w in
  run.1 = policy.1.1 /\ run.2.1 = policy.1.2 /\ effects run.2.2 = policy.2.
Proof.
  intros run policy. unfold run, policy.
  rewrite RetryableRequest_unfold, retry_policy_unfold. cbv zeta.
  destruct (requestFunc w) as [[resp err] w']. cbn [fst snd].
  destruct (retry_class (resp, err)); [|done].
  unfold MaxRetryAttempts.
  match goal with
  | |- context [RetryableRequest_loop ?f ?p (S ?r) ?a ?lr ?le ?lt (?w1, ?tr)] =>
      destruct (RetryableRequest_loop_policy f p r a lr le lt w1 tr) as (H1 & H2 & H3)
  end.
  by rewrite H1, H2, H3.
Qed.

(** What the policy amounts to: some number of retries, at most the
    number allowed, each after a sleep of the retry interval; the outcome
    returned is that of the last request; all the outcomes before it were
    retried; and the last is not retried unless the retries are used up. *)
Lemma retry_policy_shape requestFunc retries :
  forall w,
    let policy := retry_policy requestFunc retries w in
    exists n earlier,
      (n <= retries)%nat /\
      policy.2 = request_and_retries n /\
      run_requests requestFunc (S n) w = (earlier ++ [policy.1.1], policy.1.2) /\
      Forall (fun o => retry_class o = true) earlier /\
      (retry_class policy.1.1 = false \/ n = retries).
Proof.
  induction retries as [|retries IH]; intros w policy; unfold policy;
    rewrite retry_policy_unfold; cbv zeta; cbn [run_requests];
    destruct (requestFunc w) as [o w'] eqn:Hreq; cbn [fst snd];
    destruct (retry_class o) eqn:Hclass.
  - exists O, []. cbn [fst snd]. repeat split; auto; lia.
  - exists O, []. cbn [fst snd]. repeat split; auto; lia.
  - destruct (IH w') as (n & earlier & Hn & Hevents & Hrun & Hearlier & Hlast).
    exists (S n), (o :: earlier). cbn [fst snd].
    split; [lia|]. split; [by rewrite Hevents|]. split.
    + by rewrite Hrun.
    + split; [by constructor|]. destruct Hlast as [Hlast|Hlast]; [by left|right; lia].
  - exists O, []. cbn [fst snd]. split; [lia|]. split; [done|]. split.
    + done.
    + split; [constructor|auto].
Qed.

Lemma IsNetworkError_patterns text :
  IsNetworkError (Some text) = true <->
  exists pattern, pattern ∈ networkErrorPatterns /\ Contains (ToLower text) pattern = true.
Proof.
  unfold IsNetworkError. rewrite existsb_exists. split.
  - intros (pattern & Hin & Hc). exists pattern. split; [by apply list_elem_of_In|done].
  - intros (pattern & Hin & Hc). exists pattern. split; [by apply list_elem_of_In|done].
Qed.

Lemma IsServerError_status resp :
  IsServerError (Some resp) = true <->
  StatusCode resp = 502 \/ StatusCode resp = 503 \/ StatusCode resp = 504.
Proof. unfold IsServerError. rewrite !orb_true_iff, !Z.eqb_eq. tauto. Qed.

Lemma IsRateLimitError_marker resp :
  IsRateLimitError (Some resp) = true <->
  StatusCode resp = 200 /\
  Contains (ToLower (HeaderGet resp "Content-Type")) "text/event-stream" = true /\
  Contains (Bytes resp) "Rate limit error, please wait before trying again" = true.
Proof.
  unfold IsRateLimitError. destruct (Z.eqb_spec (StatusCode resp) 200) as [Hs|Hs]; simpl.
  - destruct (Contains (ToLower (HeaderGet resp "Content-Type")) "text/event-stream");
      simpl; [tauto|]. split; [done|]. by intros (_ & ? & _).
  - split; [done|]. by intros (? & _).
Qed.

Lemma requests_effects trace : requests trace = requests (effects trace).
Proof.
  unfold requests, effects. induction trace as [|e trace IH]; simpl; [done|].
  destruct e; simpl; by rewrite ?IH.
Qed.

Lemma requests_request_and_retries n : requests (request_and_retries n) = S n.
Proof.
  unfold requests. induction n as [|n IH]; simpl; [done|].
  simpl in IH. by rewrite IH.
Qed.

(** C9. The wrapper makes one request and then, as long as the outcome
    is a rate-limit error (status 200, an event-stream content type and
    the rate-limit marker in the body), a network error (one of the
    network patterns in the lower-cased error text) or a server error
    (status 502, 503 or 504), at most 3 retries, each after a sleep of 2
    seconds. It returns the outcome of its last request, which is the
    first outcome that is not retried, or the outcome of the third retry
    when every outcome was retried. *)
Theorem retry_wrapper_policy requestFunc providerName w :
  let run := RetryableRequest requestFunc providerName (w, []) in
  let policy := retry_policy requestFunc 3 w in
  (forall resp err,
     (ShouldRetry resp err).1 =
       IsRateLimitError resp || IsNetworkError err || IsServerError resp) /\
  (forall resp,
     IsRateLimitError (Some resp) = true <->
     StatusCode resp = 200 /\
     Contains (ToLower (HeaderGet resp "Content-Type")) "text/event-stream" = true /\
     Contains (Bytes resp) "Rate limit error, please wait before trying again" = true) /\
  (forall text,
     IsNetworkError (Some text) = true <->
     exists pattern, pattern ∈ networkErrorPatterns /\
                     Contains (ToLower text) pattern = true) /\
  (forall resp,
     IsServerError (Some resp) = true <->
     StatusCode resp = 502 \/ StatusCode resp = 503 \/ StatusCode resp = 504) /\
  (run.1, run.2.1, effects run.2.2) = policy /\
  RetryInterval = 2 * 1000000000 /\
  exists retries earlier,
    (retries <= 3)%nat /\
    effects run.2.2 = request_and_retries retries /\
    requests run.2.2 = S retries /\
    run_requests requestFunc (S retries) w = (earlier ++ [run.1], run.2.1) /\
    Forall (fun o => retry_class o = true) earlier /\
    (retry_class run.1 = false \/ retries = 3%nat).
Proof.
  intros run policy.
  split; [apply ShouldRetry_class|].
  split; [apply IsRateLimitError_marker|].
  split; [apply IsNetworkError_patterns|].
  split; [apply IsServerError_status|].
  destruct (RetryableRequest_policy requestFunc providerName w) as (H1 & H2 & H3).
  fold run in H1, H2, H3. change MaxRetryAttempts with 3%nat in H1, H2, H3.
  fold policy in H1, H2, H3.
  split; [|split; [done|]].
  { rewrite H1, H2, H3. by destruct policy as [[? ?] ?]. }
  destruct (retry_policy_shape requestFunc 3 w)
    as (retries & earlier & Hn & Hevents & Hrun & Hearlier & Hlast).
  fold policy in Hevents, Hrun, Hlast.
  exists retries, earlier. rewrite H1, H2, H3.
  split; [done|]. split; [done|]. split; [|done].
  rewrite requests_effects, H3, Hevents. apply requests_request_and_retries.
Qed.

(** ** Further properties of the pricing service *)

(** X1. Ensuring the cache prices of an entry twice is the same as
    ensuring them once. *)
Theorem ensureCachePricing_idempotent entry :
  ensureCachePricing (ensureCachePricing entry) = ensureCachePricing entry.
Proof.
  destruct entry as [input output creation c1 c2 read i1 i2 o1].
  unfold ensureCachePricing. cbn [InputCostPerToken OutputCostPerToken
    CacheCreationInputTokenCost CacheCreationInputTokenCostAbove1Hr
    CacheCreationInputTokenCostAbove200 CacheReadInputTokenCost
    InputCostPerTokenAbove200k InputCostPerTokenAbove128k OutputCostPerTokenAbove200k].
  destruct (PrimFloat.ltb 0 input) eqn:Hpos; rewrite ?andb_true_r, ?andb_false_r.
  - destruct (PrimFloat.eqb creation 0) eqn:Hc; destruct (PrimFloat.eqb read 0) eqn:Hr;
      rewrite ?Hc, ?Hr;
      repeat match goal with
             | |- context [if ?b then ?x else ?x] => replace (if b then x else x) with x
                 by (by destruct b)
             end; reflexivity.
  - reflexivity.
Qed.

Lemma getPricing_exact s ord model entry :
  model <> EmptyString ->
  pricingMap s !! model = Some entry ->
  getPricing s ord model = (Some entry, true).
Proof.
  intros Hne Hkey. unfold getPricing. apply String.eqb_neq in Hne.
  by rewrite Hne, Hkey.
Qed.

Lemma getPricing_indexed s ord model :
  model <> EmptyString ->
  is_Some (normalized s !! normalizeName model) ->
  (getPricing s ord model).2 = true.
Proof.
  intros Hne [key Hkey]. unfold getPricing. apply String.eqb_neq in Hne. rewrite Hne.
  destruct (pricingMap s !! model); [done|].
  destruct (if String.eqb model "gpt-5-codex" then pricingMap s !! "gpt-5"%string else None);
    [done|].
  destruct (pricingMap s !! stripRegionPrefix model); [done|].
  destruct (pricingMap s !! TrimPrefix (stripRegionPrefix model) "anthropic."); [done|].
  by rewrite Hkey.
Qed.

(** X2. Every non-empty key of a table that parses resolves, on the
    service constructed from it, to the entry stored for that key, which
    is the parsed entry with its cache prices ensured; the visiting orders
    of the construction and of the resolution do not matter. *)
Theorem constructed_key_resolves ord data raw s ordP key entry :
  json_Unmarshal data = Some raw ->
  range_order raw ord ->
  NewServiceFromData ord data = Some s ->
  raw !! key = Some entry ->
  key <> EmptyString ->
  getPricing s ordP key = (Some (ensureCachePricing entry), true).
Proof.
  intros Hparse Hord Hs Hkey Hne.
  destruct (NewServiceFromData_built ord data raw Hparse Hord) as (s' & Hs' & Hp & _).
  assert (s' = s) as -> by congruence.
  apply getPricing_exact; [done|]. by rewrite Hp, lookup_fmap, Hkey.
Qed.

(** X3. On a constructed service, a non-empty model name that has the
    normalized form of some key of the table (it differs from the key in
    letter case and separators only) is always resolved to an entry. *)
Theorem constructed_loose_name_resolves ord data raw s ordP key model :
  json_Unmarshal data = Some raw ->
  range_order raw ord ->
  NewServiceFromData ord data = Some s ->
  is_Some (raw !! key) ->
  normalizeName model = normalizeName key ->
  model <> EmptyString ->
  (getPricing s ordP model).2 = true /\ is_Some (getPricing s ordP model).1.
Proof.
  intros Hparse Hord Hs Hkey Hnorm Hne.
  pose proof (NewServiceFromData_wf ord data raw s Hparse Hord Hs) as Hwf.
  destruct (NewServiceFromData_built ord data raw Hparse Hord) as (s' & Hs' & _ & Hn & _).
  assert (s' = s) as -> by congruence.
  assert ((getPricing s ordP model).2 = true) as Hfound.
  { apply getPricing_indexed; [done|]. rewrite Hn. apply first_seen_is_Some.
    exists key. split; [|done]. by apply Hord. }
  split; [done|]. by apply (getPricing_found_iff s ordP model Hwf).
Qed.

(** X4. Resolution invents nothing: an entry that it returns is stored in
    the pricing table under some key and comes with the found flag, and
    without the found flag no entry is returned. *)
Theorem getPricing_sound s ord model :
  (forall entry,
     (getPricing s ord model).1 = Some entry ->
     (exists key, pricingMap s !! key = Some entry) /\
     (getPricing s ord model).2 = true) /\
  ((getPricing s ord model).2 = false -> (getPricing s ord model).1 = None).
Proof.
  assert ((getPricing s ord model).2 = false -> (getPricing s ord model).1 = None) as Hnil.
  { unfold getPricing. destruct (String.eqb model ""); [done|].
    destruct (pricingMap s !! model); [done|].
    destruct (if String.eqb model "gpt-5-codex" then pricingMap s !! "gpt-5"%string else None);
      [done|].
    destruct (pricingMap s !! stripRegionPrefix model); [done|].
    destruct (pricingMap s !! TrimPrefix (stripRegionPrefix model) "anthropic."); [done|].
    destruct (normalized s !! normalizeName model); [done|].
    rewrite getPricing_scan_find. by destruct (List.find _ _). }
  split; [|done]. intros entry Hentry. split; [by eapply getPricing_entry_stored|].
  destruct (getPricing s ord model).2 eqn:Hflag; [done|].
  rewrite (Hnil eq_refl) in Hentry. done.
Qed.

Lemma Contains_empty s : Contains s EmptyString = true.
Proof. by destruct s. Qed.

(** X5. A non-empty model name whose normalized form is empty (a name
    made of separators only) is contained in every normalized key: when
    no keyed lookup hits, the scan returns the entry of the first key it
    visits, so on a non-empty table such a name is always found. *)
Theorem separator_name_resolves s ord model :
  model <> EmptyString ->
  normalizeName model = EmptyString ->
  range_order (pricingMap s) ord ->
  pricingMap s <> ∅ ->
  (getPricing s ord model).2 = true /\
  (first_hit (keyed_steps s model) = None ->
   exists key entry rest,
     go_range (pricingMap s) ord = (key, entry) :: rest /\
     getPricing s ord model = (Some entry, true)).
Proof.
  intros Hne Hnorm Hord Hnonempty.
  pose proof (go_range_nonempty _ _ Hord Hnonempty) as Hrange.
  destruct (go_range (pricingMap s) ord) as [|[key entry] rest] eqn:Hgo; [done|].
  rewrite getPricing_by_steps. apply String.eqb_neq in Hne. rewrite Hne.
  unfold resolve_by_steps, resolution_steps. rewrite first_hit_app.
  assert (scan_step s ord model = Some (Some entry)) as Hscan.
  { unfold scan_step. rewrite Hgo, Hnorm. simpl.
    unfold scan_match. by rewrite Contains_empty. }
  destruct (first_hit (keyed_steps s model)) as [hit|]; simpl.
  - split; [done|]. done.
  - rewrite Hscan. split; [done|]. intros _. by exists key, entry, rest.
Qed.

(** X6. No cache-creation token is lost by the split: for counts between
    0 and 2^62, the five-minute and one-hour counts add up to the larger
    of the aggregate count and the sum of the two detailed counts, hence
    to the aggregate count whenever the details do not exceed it. *)
Theorem resolveCacheTokens_conserves usage detail :
  CacheCreation usage = Some detail ->
  0 <= Ephemeral5mTokens detail <= 2 ^ 62 ->
  0 <= Ephemeral1hTokens detail <= 2 ^ 62 ->
  0 <= CacheCreateTokens usage <= 2 ^ 62 ->
  (resolveCacheTokens usage).1 + (resolveCacheTokens usage).2 =
    Z.max (CacheCreateTokens usage) (Ephemeral5mTokens detail + Ephemeral1hTokens detail) /\
  Ephemeral5mTokens detail <= (resolveCacheTokens usage).1 /\
  (resolveCacheTokens usage).2 = Ephemeral1hTokens detail.
Proof.
  intros Hd H5 H1 Hc.
  rewrite (resolveCacheTokens_exact usage detail Hd);
    unfold GoInt.in_range, GoInt.min_int, GoInt.max_int; simpl; lia.
Qed.

(** X7. The long-context tier is never applied to a model whose
    lower-cased name lacks the 1M marker, to a total of at most 200000
    tokens, or on a service with an empty long-context table. *)
Theorem long_context_only_when_marked s ordP ordL model usage :
  IsLongContext (CalculateCost s ordP ordL model usage) = true ->
  exists s', s = Some s' /\
    model <> EmptyString /\
    carries_1m model = true /\
    200000 < totalInput usage /\
    longContexts s' <> ∅.
Proof.
  destruct s as [s'|]; [|done]. intros Hlong. exists s'. split; [done|].
  destruct (decide (model = EmptyString)) as [->|Hne]; [done|]. split; [done|].
  destruct (carries_1m model) eqn:Hm.
  - rewrite CalculateCost_priced in Hlong by auto. simpl in Hlong.
    unfold longContextTier in Hlong. unfold carries_1m in Hm. rewrite Hm in Hlong.
    destruct (200000 <? totalInput usage) eqn:Hgt; [|done].
    destruct (0 <? size (longContexts s'))%nat eqn:Hsize; [|done].
    split; [done|]. split; [lia|].
    apply map_size_non_empty_iff. apply Nat.ltb_lt in Hsize. lia.
  - destruct (getPricing s' ordP model).1 as [e|] eqn:He.
    + rewrite CalculateCost_priced in Hlong by (try done; left; rewrite He; eauto).
      simpl in Hlong. unfold longContextTier in Hlong. unfold carries_1m in Hm.
      by rewrite Hm in Hlong.
    + by rewrite CalculateCost_unpriced in Hlong.
Qed.

(** X8. On a constructed service the long-context table has one entry, so
    the tier does not depend on the visiting order: every model with the
    1M marker, whatever its name, is charged above 200000 tokens at the
    input rate 0.000006 and the output rate 0.0000225. *)
Theorem constructed_long_context_rates ord data s ordP ordL model usage :
  NewServiceFromData ord data = Some s ->
  range_order (longContexts s) ordL ->
  model <> EmptyString ->
  carries_1m model = true ->
  200000 < totalInput usage ->
  let b := CalculateCost (Some s) ordP ordL model usage in
  IsLongContext b = true /\
  InputCost b = (GoInt.to_float64 (InputTokens usage) * 0.000006)%float /\
  OutputCost b = (GoInt.to_float64 (OutputTokens usage) * 0.0000225)%float.
Proof.
  intros Hs Hord Hne Hm Hgt b.
  assert (longContexts s = buildLongContextPricing) as Hlong.
  { unfold NewServiceFromData in Hs. destruct (json_Unmarshal data); [|done].
    destruct (foldl _ _ _) as [pricing norms]. by injection Hs as <-. }
  assert (longContexts s <> ∅) as Hnonempty.
  { rewrite Hlong. apply map_non_empty_singleton. }
  destruct (longContextTier_above s ordL model usage Hm Hnonempty Hord Hgt)
    as (tier & Htier & Hwhich).
  assert (tier = mkLongContextPricing 0.000006 0.0000225) as ->.
  { rewrite Hlong in Hwhich. unfold buildLongContextPricing in Hwhich.
    destruct Hwhich as [Hk|[_ [key Hk]]];
      apply lookup_singleton_Some in Hk as [_ <-]; done. }
  unfold b. rewrite CalculateCost_priced by auto. by rewrite Htier.
Qed.

Lemma replacement_nameReplacer c new :
  replacement nameReplacer c = Some new -> new = EmptyString.
Proof.
  unfold nameReplacer. simpl.
  repeat (destruct (Ascii.eqb c _); [by intros [= <-]|]). done.
Qed.

Lemma Replace_nameReplacer_free s c :
  is_Some (replacement nameReplacer c) ->
  Contains (Replace nameReplacer s) (String c EmptyString) = false.
Proof.
  intros [new Hc]. induction s as [|a s IH]; [done|]. cbn [Replace].
  destruct (replacement nameReplacer a) as [new'|] eqn:Ha.
  - apply replacement_nameReplacer in Ha as ->. done.
  - cbn [Contains HasPrefix]. rewrite IH, andb_true_r, orb_false_r.
    apply Ascii.eqb_neq. intros ->. congruence.
Qed.

(** X9. A normalized name contains none of the six separators (hyphen,
    underscore, dot, colon, slash, space), and removing the separators
    from it again changes nothing. *)
Theorem normalizeName_separator_free name :
  Forall (fun sep => Contains (normalizeName name) (String sep EmptyString) = false)
         ["-"; "_"; "."; ":"; "/"; " "]%char /\
  Replace nameReplacer (normalizeName name) = normalizeName name.
Proof.
  split.
  - unfold normalizeName.
    repeat (constructor; [apply Replace_nameReplacer_free; by eexists|]). constructor.
  - unfold normalizeName. generalize (ToLower name). intros t.
    induction t as [|a t IH]; [done|]. cbn [Replace].
    destruct (replacement nameReplacer a) as [new|] eqn:Ha.
    + apply replacement_nameReplacer in Ha as ->. done.
    + cbn [Replace]. by rewrite Ha, IH.
Qed.

(** ** Further properties of the retry wrapper *)

(** X10. [ShouldRetry] reports the error type unknown exactly when it
    does not ask for a retry. A network error is classified first,
    whatever the response is; without a network error a missing response
    is never retried; and a response is a rate-limit error or a server
    error, never both. *)
Theorem ShouldRetry_error_type resp err :
  ((ShouldRetry resp err).1 = false <-> (ShouldRetry resp err).2 = UnknownError) /\
  (IsNetworkError err = true -> ShouldRetry resp err = (true, NetworkError)) /\
  (IsNetworkError err = false -> resp = None ->
   ShouldRetry resp err = (false, UnknownError)) /\
  (IsNetworkError err = false -> IsRateLimitError resp = true ->
   ShouldRetry resp err = (true, RateLimitError)) /\
  (IsNetworkError err = false -> IsServerError resp = true ->
   ShouldRetry resp err = (true, ServerError)) /\
  (IsRateLimitError resp = true -> IsServerError resp = false).
Proof.
  assert (IsRateLimitError resp = true -> IsServerError resp = false) as Hexcl.
  { destruct resp as [resp|]; [|done]. intros [Hs _]%IsRateLimitError_marker.
    unfold IsServerError. rewrite Hs. done. }
  unfold ShouldRetry.
  destruct (IsNetworkError err), (IsRateLimitError resp) eqn:Hrate,
    (IsServerError resp) eqn:Hserver, resp as [resp|];
    try (specialize (Hexcl eq_refl)); try discriminate;
    cbn [fst snd]; repeat split; try done; intros; done.
Qed.

(** X11. When the outcome of the first request is not retried, the
    wrapper returns it after that one request: the world is the one the
    request left, and nothing is slept or printed. *)
Theorem RetryableRequest_first_outcome requestFunc providerName w trace :
  retry_class (requestFunc w).1 = false ->
  RetryableRequest requestFunc providerName (w, trace) =
    ((requestFunc w).1, ((requestFunc w).2, trace ++ [EvRequest])).
Proof. intros H. rewrite RetryableRequest_unfold. cbv zeta. by rewrite H. Qed.

(** ** Properties of the data sources and of the periodic update *)

Lemma next_io e w : next (io e w) = S (next w).
Proof. unfold next, io. simpl. rewrite length_app. simpl. lia. Qed.

Lemma getCacheFilePath_frame w :
  env (getCacheFilePath w).2 = env w /\
  cacheFile (getCacheFilePath w).2 = cacheFile w /\
  vars (getCacheFilePath w).2 = vars w.
Proof.
  unfold getCacheFilePath.
  destruct (homeOk (env w) (next w)); simpl; [|done].
  by destruct (mkdirOk (env w) (next (io IoUserHomeDir w))).
Qed.

Lemma getCacheFilePath_Ok w u w' :
  getCacheFilePath w = (Ok u, w') <->
  homeOk (env w) (next w) = true /\ mkdirOk (env w) (S (next w)) = true /\
  u = tt /\ w' = io IoMkdirAll (io IoUserHomeDir w).
Proof.
  unfold getCacheFilePath. rewrite next_io.
  destruct (homeOk (env w) (next w)); simpl.
  - destruct (mkdirOk (env w) (S (next w))); simpl.
    + split; [by intros [= <- <-]|]. by intros (_ & _ & -> & ->).
    + split; [done|]. by intros (_ & ? & _).
  - split; [done|]. by intros (? & _).
Qed.

Lemma time_Unix_exact sec :
  GoInt.in_range (sec + unixToInternal) -> time_Unix sec = sec * 1000000000.
Proof.
  intros H. unfold time_Unix, GoInt.add. rewrite (GoInt_wrap_in_range _ H). lia.
Qed.

Lemma time_Unix_wrapped sec :
  GoInt.max_int < sec + unixToInternal -> sec <= GoInt.max_int ->
  time_Unix sec = (sec - 2 ^ 64) * 1000000000.
Proof.
  unfold time_Unix, GoInt.add, GoInt.wrap, GoInt.max_int, unixToInternal.
  intros H1 H2.
  replace (sec + 62135596800 + 2 ^ 63) with (sec + 62135596800 - 2 ^ 63 + 1 * 2 ^ 64) by lia.
  rewrite Z.mod_add by lia. rewrite Z.mod_small by lia. lia.
Qed.

Lemma loadFromCache_cases pf w :
  (forall data w',
     loadFromCache pf w = (Ok data, w') <->
     homeOk (env w) (next w) = true /\
     mkdirOk (env w) (S (next w)) = true /\
     readOk (env w) (next w + 3) = true /\
     exists content timestamp,
       cacheFile w = Some content /\
       cache_Unmarshal pf content = Some (timestamp, data) /\
       Sub (clock (env w) (next w + 4)) (time_Unix timestamp) <= updateInterval /\
       w' = set_lastUpdateTime (time_Unix timestamp)
              (io IoNow (io IoReadFile (io IoStat
                 (io IoMkdirAll (io IoUserHomeDir w)))))) /\
  (forall e w', loadFromCache pf w = (Fail e, w') -> vars w' = vars w) /\
  cacheFile (loadFromCache pf w).2 = cacheFile w /\
  exists events,
    trace (loadFromCache pf w).2 = trace w ++ events /\
    forallb (fun ev => negb (is_remote_or_write ev)) events = true.
Proof.
  unfold loadFromCache.
  destruct (getCacheFilePath w) as [path w1] eqn:Hpath.
  destruct path as [u|e].
  2:{ pose proof (getCacheFilePath_frame w) as (He & Hc & Hv). rewrite Hpath in *.
      simpl in *. split; [|split; [|split]].
      - intros data w'. split; [done|]. intros (Hh & Hm & _).
        assert (getCacheFilePath w = (Ok tt, io IoMkdirAll (io IoUserHomeDir w))) as Hok
          by (by apply getCacheFilePath_Ok).
        congruence.
      - by intros e' w' [= _ <-].
      - done.
      - unfold getCacheFilePath in Hpath.
        destruct (homeOk (env w) (next w)); simpl in Hpath.
        + destruct (mkdirOk (env w) (next (io IoUserHomeDir w))); simpl in Hpath; [done|].
          injection Hpath as _ <-. exists [IoUserHomeDir; IoMkdirAll].
          split; [|done]. simpl. by rewrite <- app_assoc.
        + injection Hpath as _ <-. by exists [IoUserHomeDir]. }
  apply getCacheFilePath_Ok in Hpath as (Hh & Hm & -> & ->).
  rewrite Hh, Hm. rewrite !next_io.
  replace (next w + 3)%nat with (S (S (S (next w)))) by lia.
  replace (next w + 4)%nat with (S (S (S (S (next w))))) by lia.
  destruct (cacheFile w) as [content|] eqn:Hfile.
  2:{ split; [|split; [|split]].
      - intros data w'. split; [done|]. by intros (_ & _ & _ & c & t & ? & _).
      - by intros e w' [= _ <-].
      - done.
      - exists [IoUserHomeDir; IoMkdirAll; IoStat]. split; [|done].
        simpl. by rewrite <- !app_assoc. }
  cbn [env io]. destruct (readOk (env w) (S (S (S (next w))))) eqn:Hread; cbn [negb].
  2:{ split; [|split; [|split]].
      - intros data w'. split; [done|]. by intros (_ & _ & ? & _).
      - by intros e w' [= _ <-].
      - done.
      - exists [IoUserHomeDir; IoMkdirAll; IoStat; IoReadFile]. split; [|done].
        simpl. by rewrite <- !app_assoc. }
  destruct (cache_Unmarshal pf content) as [[timestamp data0]|] eqn:Hdecode.
  2:{ split; [|split; [|split]].
      - intros data w'. split; [done|].
        intros (_ & _ & _ & c & t & [= <-] & ? & _). congruence.
      - by intros e w' [= _ <-].
      - done.
      - exists [IoUserHomeDir; IoMkdirAll; IoStat; IoReadFile]. split; [|done].
        simpl. by rewrite <- !app_assoc. }
  unfold time_Now. rewrite !next_io. cbn [env io].
  destruct (Z.ltb_spec updateInterval
              (Sub (clock (env w) (S (S (S (S (next w)))))) (time_Unix timestamp)))
    as [Hold|Hfresh].
  - split; [|split; [|split]].
    + intros data w'. split; [done|].
      intros (_ & _ & _ & c & t & [= <-] & Hd & Hage & _).
      rewrite Hdecode in Hd. injection Hd as <- <-. lia.
    + by intros e w' [= _ <-].
    + done.
    + exists [IoUserHomeDir; IoMkdirAll; IoStat; IoReadFile; IoNow]. split; [|done].
      simpl. by rewrite <- !app_assoc.
  - split; [|split; [|split]].
    + intros data w'. split.
      * intros [= <- <-]. repeat split; try done. by exists content, timestamp.
      * intros (_ & _ & _ & c & t & [= <-] & Hd & Hage & ->).
        rewrite Hdecode in Hd. by injection Hd as <- <-.
    + done.
    + done.
    + exists [IoUserHomeDir; IoMkdirAll; IoStat; IoReadFile; IoNow]. split; [|done].
      simpl. by rewrite <- !app_assoc.
Qed.

(** X12. [loadFromCache] returns data exactly when the cache path is
    available, the file exists, is read and decodes, and the time from
    the time of its timestamp to now is at most 24 hours: an age of
    exactly 24 hours is accepted, and so is a time in the future. The
    time of a timestamp is [time.Unix] of it, whose seconds since year 1
    wrap around in an [int64]: it is the timestamp in seconds as long as
    that sum fits, and a timestamp beyond that, however far in the
    future it reads, is a time in the far past and is rejected as
    expired by any clock after year 1. Then the data are those of the
    document and the last update time becomes the time of the timestamp.
    When it fails, the package variables stay as they were. The cache
    file is left as it is, and nothing is fetched or written. *)
Theorem loadFromCache_accepts pf w :
  (forall data w',
     loadFromCache pf w = (Ok data, w') <->
     homeOk (env w) (next w) = true /\
     mkdirOk (env w) (S (next w)) = true /\
     readOk (env w) (next w + 3) = true /\
     exists content timestamp,
       cacheFile w = Some content /\
       cache_Unmarshal pf content = Some (timestamp, data) /\
       Sub (clock (env w) (next w + 4)) (time_Unix timestamp) <= updateInterval /\
       w' = set_lastUpdateTime (time_Unix timestamp)
              (io IoNow (io IoReadFile (io IoStat
                 (io IoMkdirAll (io IoUserHomeDir w)))))) /\
  (forall e w', loadFromCache pf w = (Fail e, w') -> vars w' = vars w) /\
  cacheFile (loadFromCache pf w).2 = cacheFile w /\
  (exists events,
    trace (loadFromCache pf w).2 = trace w ++ events /\
    forallb (fun ev => negb (is_remote_or_write ev)) events = true) /\
  (forall timestamp,
     GoInt.in_range (timestamp + unixToInternal) ->
     time_Unix timestamp = timestamp * 1000000000) /\
  (forall content timestamp data,
     cacheFile w = Some content ->
     cache_Unmarshal pf content = Some (timestamp, data) ->
     GoInt.max_int < timestamp + unixToInternal -> timestamp <= GoInt.max_int ->
     zeroTime <= clock (env w) (next w + 4) ->
     forall data' w', loadFromCache pf w <> (Ok data', w')).
Proof.
  pose proof (loadFromCache_cases pf w) as (Hiff & Hfail & Hfile & Htrace).
  split; [done|]. split; [done|]. split; [done|]. split; [done|].
  split; [apply time_Unix_exact|].
  intros content timestamp data Hc Hd Hbig Hmax Hclock data' w' Hload.
  apply Hiff in Hload as (_ & _ & _ & c & t & Hc' & Hd' & Hage & _).
  assert (t = timestamp) as -> by congruence.
  rewrite (time_Unix_wrapped timestamp Hbig Hmax) in Hage.
  unfold Sub, updateInterval, zeroTime, unixToInternal, GoInt.max_int, GoInt.min_int in *.
  lia.
Qed.

Lemma fetchRemotePricing_world pf w :
  (fetchRemotePricing pf w).2 = io (IoHttpGet (30 * 1000000000)) w.
Proof.
  unfold fetchRemotePricing. destruct (http (env w) (next w)) as [|status body]; [done|].
  destruct (negb (status =? 200)); [done|]. destruct body as [data|]; [|done].
  by destruct (json_valid pf data).
Qed.

Lemma fetchRemotePricing_result pf w :
  (forall data, remote_data pf (env w) (next w) = Some data ->
                (fetchRemotePricing pf w).1 = Ok data) /\
  (remote_data pf (env w) (next w) = None ->
   exists e, (fetchRemotePricing pf w).1 = Fail e).
Proof.
  unfold fetchRemotePricing, remote_data.
  destruct (http (env w) (next w)) as [|status body]; simpl; [split; [done|eauto]|].
  destruct body as [data|]; simpl.
  - destruct (status =? 200); simpl; [|split; [done|eauto]].
    destruct (json_valid pf data); simpl; split; try done; eauto.
    by intros data' [= <-].
  - destruct (status =? 200); simpl; split; try done; eauto.
Qed.

(** X13. [fetchRemotePricing] makes one request, with a timeout of 30
    seconds, and does nothing else to the world. It returns data exactly
    when the request is answered with status 200 and a body that is read
    and is a JSON object, and the data are that body, byte for byte. *)
Theorem fetchRemotePricing_accepts pf w :
  (fetchRemotePricing pf w).2 = io (IoHttpGet 30000000000) w /\
  forall data,
    (fetchRemotePricing pf w).1 = Ok data <->
    http (env w) (next w) = HttpAnswer 200 (Some data) /\ json_valid pf data = true.
Proof.
  split; [apply fetchRemotePricing_world|]. intros data. unfold fetchRemotePricing.
  destruct (http (env w) (next w)) as [|status body]; simpl.
  { split; [done|]. by intros [? _]. }
  destruct (Z.eqb_spec status 200) as [->|Hstatus]; simpl.
  - destruct body as [data'|]; simpl.
    + destruct (json_valid pf data') eqn:Hvalid; simpl.
      * split; [by intros [= <-]|]. by intros [[= <-] _].
      * split; [done|]. intros [[= <-] ?]. congruence.
    + split; [done|]. by intros [? _].
  - split; [done|]. intros [[= ? _] _]. done.
Qed.

(** X14. With a cache that [loadFromCache] accepts, the service is
    constructed from the cached data and from nothing else: no request is
    made, no file is written, and when the cached data do not parse the
    construction fails, the remote table and the embedded file not being
    tried. *)
Theorem NewServiceWithDynamicUpdate_cache_first pf ord w data w1 :
  loadFromCache pf w = (Ok data, w1) ->
  NewServiceWithDynamicUpdate pf ord w = (of_option (NewServiceFromData ord data), w1) /\
  (json_Unmarshal data = None ->
   (NewServiceWithDynamicUpdate pf ord w).1 = Fail ErrParse) /\
  exists events,
    trace (NewServiceWithDynamicUpdate pf ord w).2 = trace w ++ events /\
    forallb (fun ev => negb (is_remote_or_write ev)) events = true.
Proof.
  intros Hload.
  assert (NewServiceWithDynamicUpdate pf ord w
          = (of_option (NewServiceFromData ord data), w1)) as Heq.
  { unfold NewServiceWithDynamicUpdate. by rewrite Hload. }
  split; [done|]. split.
  - intros Hparse. rewrite Heq. unfold NewServiceFromData. by rewrite Hparse.
  - rewrite Heq. simpl.
    destruct (loadFromCache_cases pf w) as (_ & _ & _ & events & Ht & Hev).
    rewrite Hload in Ht. by exists events.
Qed.

Lemma loadFromCache_env pf w : env (loadFromCache pf w).2 = env w.
Proof.
  unfold loadFromCache, getCacheFilePath, time_Now.
  destruct (homeOk (env w) (next w)); simpl; [|done].
  destruct (mkdirOk (env w) (next (io IoUserHomeDir w))); simpl; [|done].
  destruct (cacheFile w) as [content|]; simpl; [|done].
  destruct (readOk (env w) _); simpl; [|done].
  destruct (cache_Unmarshal pf content) as [[timestamp data]|]; simpl; [|done].
  by destruct (updateInterval <? _).
Qed.

Lemma saveToCache_frame pf data w :
  env (saveToCache pf data w).2 = env w /\
  vars (saveToCache pf data w).2 = vars w /\
  exists events,
    trace (saveToCache pf data w).2 = trace w ++ events /\
    updates events = O.
Proof.
  unfold saveToCache, getCacheFilePath, time_Now.
  destruct (homeOk (env w) (next w)); simpl.
  2:{ repeat split; try done. by exists [IoUserHomeDir]. }
  destruct (mkdirOk (env w) (next (io IoUserHomeDir w))); simpl.
  2:{ repeat split; try done. exists [IoUserHomeDir; IoMkdirAll].
      split; [|done]. by rewrite <- app_assoc. }
  destruct (cache_Marshal pf _ data) as [cacheBytes|]; simpl.
  2:{ repeat split; try done. exists [IoUserHomeDir; IoMkdirAll; IoNow].
      split; [|done]. by rewrite <- !app_assoc. }
  destruct (writeOk (env w) _); simpl; repeat split; try done;
    exists [IoUserHomeDir; IoMkdirAll; IoNow; IoWriteFile cacheBytes];
    (split; [|done]); by rewrite <- !app_assoc.
Qed.

(** X15. [NewServiceWithDynamicUpdate] never fails for a reason of input
    or output: its result is that of [NewServiceFromData] on the data of
    the cache document, on the body of an answer with status 200 that is
    a JSON object, or on the embedded file, and its only error is that
    these data do not parse. *)
Theorem NewServiceWithDynamicUpdate_source pf ord w :
  exists data,
    (NewServiceWithDynamicUpdate pf ord w).1 = of_option (NewServiceFromData ord data) /\
    ((exists content timestamp,
        cacheFile w = Some content /\
        cache_Unmarshal pf content = Some (timestamp, data)) \/
     (exists i, http (env w) i = HttpAnswer 200 (Some data) /\
                json_valid pf data = true) \/
     data = pricingFile pf) /\
    (forall e, (NewServiceWithDynamicUpdate pf ord w).1 = Fail e ->
               e = ErrParse /\ json_Unmarshal data = None).
Proof.
  assert (forall data e, of_option (NewServiceFromData ord data) = Fail e ->
                         e = ErrParse /\ json_Unmarshal data = None) as Hfail.
  { intros data e. unfold NewServiceFromData.
    destruct (json_Unmarshal data); [|by intros [= <-]].
    by destruct (foldl _ _ _). }
  unfold NewServiceWithDynamicUpdate.
  destruct (loadFromCache pf w) as [cached w1] eqn:Hload.
  destruct cached as [data|e].
  - exists data. split; [done|]. split; [|apply Hfail].
    left. apply (proj1 (loadFromCache_cases pf w)) in Hload
      as (_ & _ & _ & content & timestamp & Hfile & Hdecode & _).
    by exists content, timestamp.
  - pose proof (loadFromCache_env pf w) as Henv. rewrite Hload in Henv. simpl in Henv.
    destruct (fetchRemotePricing pf w1) as [fetched w2] eqn:Hfetch.
    destruct fetched as [data|e'].
    + destruct (saveToCache pf data w2) as [saved w3].
      destruct (time_Now _) as [now w5]. exists data. split; [done|].
      split; [|apply Hfail]. right. left. exists (next w1). rewrite <- Henv.
      apply (proj2 (fetchRemotePricing_accepts pf w1)). by rewrite Hfetch.
    + exists (pricingFile pf). split; [done|]. split; [by right; right|apply Hfail].
Qed.

Lemma updates_app t t' : updates (t ++ t') = (updates t + updates t')%nat.
Proof. unfold updates. by rewrite List.filter_app, length_app. Qed.

Lemma updatePricingData_cases pf ord w :
  let w0 := Printf_io UpdateStart w in
  let w1 := io (IoHttpGet (30 * 1000000000)) w0 in
  match remote_data pf (env w) (S (next w)) with
  | None => exists e, updatePricingData pf ord w = Printf_io (UpdateFetchFailed e) w1
  | Some data =>
      match NewServiceFromData ord data with
      | None => updatePricingData pf ord w = Printf_io (UpdateBuildFailed ErrParse) w1
      | Some newService =>
          let w4 := set_lastUpdateTime (clock (env w) (S (S (next w))))
                      (io IoNow (set_defaultService (Some newService) w1)) in
          let saved := saveToCache pf data w4 in
          updatePricingData pf ord w =
            Printf_io UpdateDone
              match saved.1 with
              | Fail e => Printf_io (UpdateSaveFailed e) saved.2
              | Ok _ => saved.2
              end
      end
  end.
Proof.
  intros w0 w1. unfold updatePricingData. fold w0.
  pose proof (fetchRemotePricing_world pf w0) as Hworld.
  pose proof (fetchRemotePricing_result pf w0) as [Hsome Hnone].
  assert (next w0 = S (next w)) as Hnext by apply next_io.
  assert (env w0 = env w) as Henv by done.
  rewrite Hnext, Henv in Hsome, Hnone.
  destruct (fetchRemotePricing pf w0) as [fetched w1'] eqn:Hfetch. simpl in *. subst w1'.
  fold w1. destruct (remote_data pf (env w) (S (next w))) as [data|].
  - rewrite (Hsome data eq_refl).
    destruct (NewServiceFromData ord data) as [newService|]; [|done].
    unfold time_Now. cbn [env set_defaultService set_vars].
    assert (next (set_defaultService (Some newService) w1) = S (S (next w))) as ->.
    { unfold next, set_defaultService, set_vars, w1, w0, Printf_io, io. simpl.
      rewrite !length_app. simpl. lia. }
    by destruct (saveToCache pf data _) as [saved w5].
  - destruct (Hnone eq_refl) as [e ->]. by exists e.
Qed.

(** X16. An update that cannot fetch the remote table, or whose table
    does not parse, leaves the default service, the last update time, the
    other package variables and the cache file as they were. *)
Theorem updatePricingData_failure_keeps pf ord w :
  remote_data pf (env w) (S (next w)) = None \/
  (exists data, remote_data pf (env w) (S (next w)) = Some data /\
                NewServiceFromData ord data = None) ->
  vars (updatePricingData pf ord w) = vars w /\
  cacheFile (updatePricingData pf ord w) = cacheFile w.
Proof.
  intros Hcase. pose proof (updatePricingData_cases pf ord w) as H. cbv zeta in H.
  destruct Hcase as [Hnone|(data & Hsome & Hparse)].
  - rewrite Hnone in H. destruct H as [e ->]. done.
  - rewrite Hsome, Hparse in H. by rewrite H.
Qed.

(** X17. An update that fetches a remote table that parses makes the
    service constructed from it the default service and sets the last
    update time to the time read next, whether or not the table is then
    saved to the cache; the other package variables are left alone. *)
Theorem updatePricingData_success_swaps pf ord w data newService :
  remote_data pf (env w) (S (next w)) = Some data ->
  NewServiceFromData ord data = Some newService ->
  vars (updatePricingData pf ord w) =
    mkVars (defaultOnce (vars w)) (Some newService) (defaultErr (vars w))
           (clock (env w) (S (S (next w)))) (updateTimer (vars w)).
Proof.
  intros Hsome Hparse. pose proof (updatePricingData_cases pf ord w) as H.
  cbv zeta in H. rewrite Hsome, Hparse in H. rewrite H. clear H.
  match goal with
  | |- context [saveToCache pf data ?w4] =>
      pose proof (saveToCache_frame pf data w4) as (_ & Hvars & _);
      destruct (saveToCache pf data w4) as [saved w5]
  end.
  simpl in *. destruct saved; simpl; by rewrite Hvars.
Qed.

(** X18. [startPeriodicUpdate] makes a pending timer for the first
    update. Its delay is 24 hours when no last update time is known, one
    minute when the last update is 24 hours old or older, and the rest of
    the 24 hours when it is younger, which is positive; for a last update
    time in the future the delay is longer than 24 hours. *)
Theorem startPeriodicUpdate_delay w :
  let last := lastUpdateTime (vars w) in
  let elapsed := Sub (clock (env w) (next w)) last in
  exists d,
    updateTimer (vars (startPeriodicUpdate w)) = Some (mkTimer d FirstUpdate true) /\
    (IsZero last = true -> d = updateInterval) /\
    (IsZero last = false -> updateInterval <= elapsed -> d = time_Minute) /\
    (IsZero last = false -> 0 <= elapsed < updateInterval ->
     d = updateInterval - elapsed /\ 0 < d <= updateInterval) /\
    (IsZero last = false -> elapsed < 0 -> updateInterval - elapsed <= GoInt.max_int ->
     d = updateInterval - elapsed /\ updateInterval < d).
Proof.
  intros last elapsed. unfold startPeriodicUpdate. fold last.
  destruct (IsZero last) eqn:Hzero; cbn [negb].
  - exists updateInterval. repeat split; done.
  - unfold time_Now. fold elapsed.
    destruct (Z.ltb_spec elapsed updateInterval) as [Hlt|Hge].
    + exists (GoInt.sub updateInterval elapsed). split; [done|].
      assert (GoInt.min_int <= elapsed) as Hmin by (unfold elapsed, Sub; lia).
      clearbody elapsed.
      split; [done|]. split; [intros _ ?; lia|]. split.
      * intros _ [H0 _]. unfold GoInt.sub. rewrite GoInt_wrap_in_range.
        -- unfold updateInterval in *. lia.
        -- unfold GoInt.in_range, GoInt.min_int, GoInt.max_int, updateInterval in *. lia.
      * intros _ Hneg Hmax. unfold GoInt.sub. rewrite GoInt_wrap_in_range.
        -- lia.
        -- unfold GoInt.in_range, GoInt.min_int, GoInt.max_int, updateInterval in *. lia.
    + exists time_Minute. split; [done|].
      repeat split; try done; intros; unfold updateInterval in *; lia.
Qed.

Lemma loadFromCache_vars pf w :
  let v := vars w in
  let v' := vars (loadFromCache pf w).2 in
  defaultOnce v' = defaultOnce v /\ defaultService v' = defaultService v /\
  defaultErr v' = defaultErr v /\ updateTimer v' = updateTimer v.
Proof.
  unfold loadFromCache, getCacheFilePath, time_Now.
  destruct (homeOk (env w) (next w)); simpl; [|done].
  destruct (mkdirOk (env w) (next (io IoUserHomeDir w))); simpl; [|done].
  destruct (cacheFile w) as [content|]; simpl; [|done].
  destruct (readOk (env w) _); simpl; [|done].
  destruct (cache_Unmarshal pf content) as [[timestamp data]|]; simpl; [|done].
  by destruct (updateInterval <? _).
Qed.

Lemma NewServiceWithDynamicUpdate_vars pf ord w :
  let v := vars w in
  let v' := vars (NewServiceWithDynamicUpdate pf ord w).2 in
  defaultOnce v' = defaultOnce v /\ defaultService v' = defaultService v /\
  defaultErr v' = defaultErr v /\ updateTimer v' = updateTimer v.
Proof.
  unfold NewServiceWithDynamicUpdate.
  pose proof (loadFromCache_vars pf w) as Hload. cbv zeta in Hload.
  destruct (loadFromCache pf w) as [cached w1]. simpl in Hload.
  destruct cached as [data|e]; [done|].
  pose proof (fetchRemotePricing_world pf w1) as Hfetch.
  destruct (fetchRemotePricing pf w1) as [fetched w2]. simpl in Hfetch. subst w2.
  destruct fetched as [data|e']; [|done].
  pose proof (saveToCache_frame pf data (io (IoHttpGet (30 * 1000000000)) w1))
    as (_ & Hsave & _).
  destruct (saveToCache pf data _) as [saved w3]. simpl in Hsave.
  destruct saved; simpl; by rewrite Hsave.
Qed.

Lemma updatePricingData_frame pf ord w :
  let v := vars w in
  let v' := vars (updatePricingData pf ord w) in
  defaultOnce v' = defaultOnce v /\ defaultErr v' = defaultErr v /\
  updateTimer v' = updateTimer v /\
  updates (trace (updatePricingData pf ord w)) = S (updates (trace w)).
Proof.
  pose proof (updatePricingData_cases pf ord w) as H. cbv zeta in H.
  destruct (remote_data pf (env w) (S (next w))) as [data|] eqn:Hremote.
  - destruct (NewServiceFromData ord data) as [newService|] eqn:Hparse.
    + rewrite (updatePricingData_success_swaps pf ord w data newService Hremote Hparse).
      simpl. repeat split. rewrite H. clear H.
      match goal with
      | |- context [saveToCache pf data ?w4] =>
          pose proof (saveToCache_frame pf data w4) as (_ & _ & events & Ht & Hev);
          destruct (saveToCache pf data w4) as [saved w5]
      end.
      simpl in *. destruct saved; simpl; rewrite Ht; simpl;
        rewrite !updates_app, Hev; unfold updates; simpl; lia.
    + rewrite H. simpl. repeat split. rewrite !updates_app. unfold updates. simpl. lia.
  - destruct H as [e ->]. simpl. repeat split. rewrite !updates_app. unfold updates. simpl. lia.
Qed.

(** One step never raises the number of updates begun and still to come,
    and keeps [defaultOnce] set. *)
Lemma step_updates pf w a :
  defaultOnce (vars w) = true ->
  let w' := step pf w a in
  defaultOnce (vars w') = true /\
  (updates (trace w') + updates_left (updateTimer (vars w'))
   <= updates (trace w) + updates_left (updateTimer (vars w)))%nat /\
  (updates (trace w) <= updates (trace w'))%nat.
Proof.
  intros Honce. destruct a as [ord| |ord]; simpl.
  - unfold fire. destruct (updateTimer (vars w)) as [[d cb p]|] eqn:Htimer;
      [|rewrite Htimer; simpl; auto with lia].
    destruct cb, p; try (rewrite Htimer; simpl; auto with lia).
    + match goal with
      | |- context [updatePricingData pf ord ?w1] =>
          pose proof (updatePricingData_frame pf ord w1) as (H1 & _ & _ & H4)
      end.
      simpl in *. rewrite updates_app, H4. unfold updates. simpl. split; [congruence|lia].
    + match goal with
      | |- context [updatePricingData pf ord ?w1] =>
          pose proof (updatePricingData_frame pf ord w1) as (H1 & _ & H3 & H4)
      end.
      simpl in *. rewrite H3, H4. simpl. split; [congruence|lia].
  - unfold StopPeriodicUpdate. destruct (updateTimer (vars w)) as [t|] eqn:Htimer.
    + simpl. rewrite updates_app. unfold updates. simpl. split; [done|lia].
    + rewrite Htimer. auto with lia.
  - unfold DefaultService. rewrite Honce. simpl. auto with lia.
Qed.

Lemma run_updates pf acts :
  forall w,
    defaultOnce (vars w) = true ->
    (updates (trace (run pf acts w)) + updates_left (updateTimer (vars (run pf acts w)))
     <= updates (trace w) + updates_left (updateTimer (vars w)))%nat /\
    (updates (trace w) <= updates (trace (run pf acts w)))%nat.
Proof.
  induction acts as [|a acts IH]; intros w Honce; simpl; [lia|].
  destruct (step_updates pf w a Honce) as (Honce' & Hle & Hmono).
  destruct (IH (step pf w a) Honce') as [IH1 IH2]. unfold run in *. lia.
Qed.

(** X19. The periodic update is not periodic: once [startPeriodicUpdate]
    has run, the timers it sets up start at most two updates, whatever
    the runtime and the program do afterwards, since the callback of the
    second timer does not make a third. *)
Theorem at_most_two_updates pf acts w :
  defaultOnce (vars w) = true ->
  (updates (trace (run pf acts (startPeriodicUpdate w))) <= updates (trace w) + 2)%nat.
Proof.
  intros Honce.
  destruct (startPeriodicUpdate_delay w) as (d & Htimer & _).
  assert (defaultOnce (vars (startPeriodicUpdate w)) = true
          /\ updates (trace (startPeriodicUpdate w)) = updates (trace w)) as [Honce' Htrace].
  { unfold startPeriodicUpdate, time_Now.
    destruct (negb (IsZero (lastUpdateTime (vars w)))); simpl.
    - destruct (_ <? _); simpl; rewrite !updates_app; unfold updates; simpl;
        (split; [done|lia]).
    - rewrite updates_app. unfold updates. simpl. split; [done|lia]. }
  destruct (run_updates pf acts (startPeriodicUpdate w) Honce') as [Hle _].
  rewrite Htimer, Htrace in Hle. simpl in Hle. lia.
Qed.

Lemma startPeriodicUpdate_vars w :
  let v := vars w in
  let v' := vars (startPeriodicUpdate w) in
  defaultOnce v' = defaultOnce v /\ defaultService v' = defaultService v /\
  defaultErr v' = defaultErr v /\ lastUpdateTime v' = lastUpdateTime v.
Proof.
  unfold startPeriodicUpdate, time_Now.
  destruct (negb (IsZero (lastUpdateTime (vars w)))); simpl; [|done].
  by destruct (_ <? _).
Qed.

Lemma DefaultService_once pf ord w :
  defaultOnce (vars (DefaultService pf ord w).2) = true.
Proof.
  unfold DefaultService. destruct (defaultOnce (vars w)) eqn:Honce; simpl; [done|].
  destruct (NewServiceWithDynamicUpdate pf ord w) as [built w1].
  destruct built as [s|e]; simpl; [|done].
  by rewrite (proj1 (startPeriodicUpdate_vars _)).
Qed.

(** X20. The default service is set up once: whatever the first call of
    [DefaultService] did and returned, a call that follows it returns the
    same service and error and does nothing, in particular no input or
    output. *)
Theorem DefaultService_second_call pf ord ord' w :
  let first := DefaultService pf ord w in
  DefaultService pf ord' first.2 = (first.1, first.2).
Proof.
  intros first. pose proof (DefaultService_once pf ord w) as Honce. fold first in Honce.
  assert (first.1 = (defaultService (vars first.2), defaultErr (vars first.2))) as ->
    by done.
  unfold DefaultService at 1. by rewrite Honce.
Qed.

(** Without a pending timer nothing is updated and nothing changes in the
    service and the error that [DefaultService] returns. *)
Lemma run_without_timer pf acts :
  forall w,
    defaultOnce (vars w) = true ->
    updates_left (updateTimer (vars w)) = O ->
    let w' := run pf acts w in
    updates (trace w') = updates (trace w) /\
    defaultService (vars w') = defaultService (vars w) /\
    defaultErr (vars w') = defaultErr (vars w) /\
    defaultOnce (vars w') = true /\
    updates_left (updateTimer (vars w')) = O.
Proof.
  induction acts as [|a acts IH]; intros w Honce Hleft; simpl; [done|].
  assert (updates (trace (step pf w a)) = updates (trace w) /\
          defaultService (vars (step pf w a)) = defaultService (vars w) /\
          defaultErr (vars (step pf w a)) = defaultErr (vars w) /\
          defaultOnce (vars (step pf w a)) = true /\
          updates_left (updateTimer (vars (step pf w a))) = O) as (H1 & H2 & H3 & H4 & H5).
  { destruct a as [ord| |ord]; simpl.
    - unfold fire. destruct (updateTimer (vars w)) as [[d cb p]|] eqn:Htimer;
        [|by rewrite Htimer].
      destruct cb, p; simpl in Hleft; try done; by rewrite Htimer.
    - unfold StopPeriodicUpdate. destruct (updateTimer (vars w)) as [t|] eqn:Htimer.
      + simpl. rewrite updates_app. unfold updates. simpl. repeat split; try done; lia.
      + by rewrite Htimer.
    - unfold DefaultService. by rewrite Honce. }
  destruct (IH (step pf w a) H4 H5) as (I1 & I2 & I3 & I4 & I5).
  unfold run in *. simpl in *. repeat split; congruence.
Qed.

(** X21. A first call of [DefaultService] that fails, in a program that
    has just started, fails for good: no timer is made, so no update is
    ever started, and every later call returns no service and the same
    error, whatever the runtime and the program do in between. *)
Theorem DefaultService_failure_is_permanent pf ord w e acts ord' :
  vars w = initialVars ->
  (DefaultService pf ord w).1.2 = Some e ->
  let w1 := (DefaultService pf ord w).2 in
  let w2 := run pf acts w1 in
  (DefaultService pf ord' w2).1 = (None, Some e) /\
  updates (trace w2) = updates (trace w1) /\
  updateTimer (vars w2) = None.
Proof.
  intros Hinit Hfail w1 w2.
  assert (vars w1 = mkVars true None (Some e) (lastUpdateTime (vars w1)) None) as Hvars.
  { unfold w1 in *. revert Hfail. unfold DefaultService. rewrite Hinit. simpl.
    pose proof (NewServiceWithDynamicUpdate_vars pf ord w) as (_ & _ & _ & Htimer).
    rewrite Hinit in Htimer. simpl in Htimer.
    destruct (NewServiceWithDynamicUpdate pf ord w) as [built w'].
    destruct built as [s|e']; simpl in *.
    - rewrite (proj1 (proj2 (proj2 (startPeriodicUpdate_vars _)))). done.
    - intros [= ->]. by rewrite Htimer. }
  assert (defaultOnce (vars w1) = true) as Honce by (by rewrite Hvars).
  assert (updates_left (updateTimer (vars w1)) = O) as Hleft by (by rewrite Hvars).
  destruct (run_without_timer pf acts w1 Honce Hleft) as (H1 & H2 & H3 & H4 & H5).
  fold w2 in H1, H2, H3, H4, H5.
  split; [|split; [done|]].
  - unfold DefaultService. rewrite H4. simpl. rewrite H2, H3, Hvars. done.
  - clear - Hvars Honce Hleft. unfold w2. clear w2.
    assert (forall acts w, defaultOnce (vars w) = true -> updateTimer (vars w) = None ->
                           updateTimer (vars (run pf acts w)) = None) as Hnone.
    { clear. induction acts as [|a acts IH]; intros w Honce Htimer; [done|].
      simpl. apply IH.
      - destruct a as [ord| |ord]; simpl.
        + unfold fire. by rewrite Htimer.
        + unfold StopPeriodicUpdate. by rewrite Htimer.
        + unfold DefaultService. by rewrite Honce.
      - destruct a as [ord| |ord]; simpl.
        + unfold fire. by rewrite Htimer.
        + unfold StopPeriodicUpdate. by rewrite Htimer.
        + unfold DefaultService. by rewrite Honce. }
    apply Hnone; [done|]. by rewrite Hvars.
Qed.

(** A timer that fires and whose callback runs to its end without the
    program acting in between does what [fire] does. *)
Lemma fire_moves pf ord w :
  moves pf [MoveExpire; MoveCallback 0 ord; MoveCallback 0 ord] (mkRuntime w [])
  = mkRuntime (fire pf ord w) [].
Proof.
  unfold moves, fire. simpl. unfold expire. simpl.
  destruct (updateTimer (vars w)) as [[d cb p]|] eqn:Htimer; [|done].
  destruct p; [|by destruct cb]. by destruct cb.
Qed.



Lemma saveToCache_Ok pf data w u w1 :
  saveToCache pf data w = (Ok u, w1) ->
  exists cacheBytes,
    cache_Marshal pf (Unix (clock (env w) (next w + 2))) data = Some cacheBytes /\
    cacheFile w1 = Some cacheBytes /\
    env w1 = env w /\ vars w1 = vars w /\
    trace w1 = trace w ++ [IoUserHomeDir; IoMkdirAll; IoNow; IoWriteFile cacheBytes].
Proof.
  unfold saveToCache, getCacheFilePath, time_Now.
  destruct (homeOk (env w) (next w)); simpl; [|done].
  destruct (mkdirOk (env w) (next (io IoUserHomeDir w))); simpl; [|done].
  rewrite !next_io. replace (next w + 2)%nat with (S (S (next w))) by lia.
  destruct (cache_Marshal pf _ data) as [cacheBytes|]; simpl; [|done].
  destruct (writeOk (env w) _); simpl; [|done].
  intros [= _ <-]. exists cacheBytes. simpl. repeat split. by rewrite <- !app_assoc.
Qed.

(** X23. A table that [saveToCache] has saved comes back from
    [loadFromCache]. The cache document need not keep the data byte for
    byte ([json.Marshal] writes them in compact form): it is enough that
    it decodes to the timestamp it was made with and to data that parse
    to the same table as the data saved. When the file can be reached and
    read, a load within 24 hours of the time of the saved timestamp then
    returns data from which [NewServiceFromData] constructs what it
    constructs from the saved data, and the last update time becomes the
    time of that timestamp, which is the time of saving rounded down to
    whole seconds as long as the timestamp is in the range of
    [time.Unix]. *)
Theorem cache_round_trip pf data w w1 :
  saveToCache pf data w = (Ok tt, w1) ->
  let saved := Unix (clock (env w) (next w + 2)) in
  (forall cacheBytes,
     cache_Marshal pf saved data = Some cacheBytes ->
     exists data',
       cache_Unmarshal pf cacheBytes = Some (saved, data') /\
       json_Unmarshal data' = json_Unmarshal data) ->
  homeOk (env w) (next w1) = true ->
  mkdirOk (env w) (S (next w1)) = true ->
  readOk (env w) (next w1 + 3) = true ->
  Sub (clock (env w) (next w1 + 4)) (time_Unix saved) <= updateInterval ->
  exists data',
    (loadFromCache pf w1).1 = Ok data' /\
    (forall ord, NewServiceFromData ord data' = NewServiceFromData ord data) /\
    lastUpdateTime (vars (loadFromCache pf w1).2) = time_Unix saved /\
    (GoInt.in_range (saved + unixToInternal) ->
     time_Unix saved <= clock (env w) (next w + 2) < time_Unix saved + 1000000000).
Proof.
  intros Hsave saved Hcodec Hhome Hmkdir Hread Hage.
  apply saveToCache_Ok in Hsave as (cacheBytes & Hbytes & Hfile & Henv & Hvars & _).
  fold saved in Hbytes.
  destruct (Hcodec cacheBytes Hbytes) as (data' & Hdecode & Hsame).
  exists data'.
  assert (loadFromCache pf w1
          = (Ok data', set_lastUpdateTime (time_Unix saved)
                         (io IoNow (io IoReadFile (io IoStat
                            (io IoMkdirAll (io IoUserHomeDir w1))))))) as Hload.
  { apply (proj1 (loadFromCache_cases pf w1)). rewrite Henv.
    repeat split; try done. exists cacheBytes, saved. repeat split; auto. }
  rewrite Hload. simpl. split; [done|]. split; [|split; [done|]].
  - intros ord. unfold NewServiceFromData. by rewrite Hsame.
  - intros Hrange. rewrite (time_Unix_exact saved Hrange). unfold saved, Unix. split.
    + pose proof (Z.mul_div_le (clock (env w) (next w + 2)) 1000000000). lia.
    + pose proof (Z.mul_succ_div_gt (clock (env w) (next w + 2)) 1000000000). lia.
Qed.

End Program.

Arguments Ok {A} a.
Arguments Fail {A} e.

(** ** Instances on concrete inputs *)

Lemma range_orderb_ok {V} (m : gmap string V) ord :
  range_orderb m ord = true -> range_order m ord.
Proof.
  unfold range_orderb, range_order. intros [H1 H2]%andb_prop.
  apply bool_decide_eq_true in H1, H2. split; [done|].
  intros k. rewrite <- elem_of_dom, <- H2. by rewrite elem_of_list_to_set.
Qed.

Lemma long_context_threshold_witness :
  let usage := mkUsageSnapshot 250000 1000 0 0 None in
  let s := mkService ∅ ∅ buildEphemeral1hPricing buildLongContextPricing in
  IsLongContext
    (CalculateCost ascii_ToLower GoFloat.unfused (Some s) [] ["claude-sonnet-4-20250514[1m]"%string]
       "claude-sonnet-4-20250514[1M]" usage) = true
  <-> 200000 < totalInput usage.
Proof.
  intros usage s.
  refine (proj1 (long_context_threshold ascii_ToLower GoFloat.unfused s []
                   ["claude-sonnet-4-20250514[1m]"%string]
                   "claude-sonnet-4-20250514[1M]" usage _ _ _ _)).
  - reflexivity.
  - reflexivity.
  - intros H. apply (f_equal size) in H. vm_compute in H. discriminate.
  - apply range_orderb_ok. vm_compute. reflexivity.
Defined.

Lemma scan_service_constructed :
  NewServiceFromData ascii_ToLower (decode_as scan_table)
    ["gpt-4o"; "gpt-4o-mini"]%string "" = Some scan_service /\
  NewServiceFromData ascii_ToLower (decode_as scan_table)
    ["gpt-4o-mini"; "gpt-4o"]%string "" = Some scan_service.
Proof. split; vm_compute; reflexivity. Qed.

Lemma scan_service_wf : service_wf scan_service.
Proof.
  apply (NewServiceFromData_wf ascii_ToLower (decode_as scan_table)
           ["gpt-4o"; "gpt-4o-mini"]%string "" scan_table).
  - reflexivity.
  - apply range_orderb_ok. vm_compute. reflexivity.
  - apply scan_service_constructed.
Qed.

(** The region prefix is recognised whatever the case of its letters,
    the provider prefix only as it is spelled. *)
Example stripRegionPrefix_upper_case :
  stripRegionPrefix ascii_ToLower "US.gpt-4o" = "gpt-4o"%string /\
  stripRegionPrefix ascii_ToLower "apac.anthropic.claude" = "anthropic.claude"%string /\
  TrimPrefix "Anthropic.claude" "anthropic." = "Anthropic.claude"%string /\
  getPricing ascii_ToLower scan_service [] "US.gpt-4o"
  = (Some (ensureCachePricing sample_entry_a), true).
Proof. repeat split; by vm_compute. Qed.

Lemma scan_table_orders :
  range_order scan_table ["gpt-4o"; "gpt-4o-mini"]%string /\
  range_order scan_table ["gpt-4o-mini"; "gpt-4o"]%string.
Proof. split; apply range_orderb_ok; vm_compute; reflexivity. Qed.

Lemma scan_service_orders :
  range_order (pricingMap scan_service) ["gpt-4o"; "gpt-4o-mini"]%string /\
  range_order (pricingMap scan_service) ["gpt-4o-mini"; "gpt-4o"]%string.
Proof. split; apply range_orderb_ok; vm_compute; reflexivity. Qed.


(** The name US.gpt-4o is resolved by the third step. *)
Lemma resolution_order_witness :
  "US.gpt-4o"%string <> EmptyString /\
  getPricing ascii_ToLower scan_service [] "US.gpt-4o" =
    resolve_by_steps ascii_ToLower scan_service [] "US.gpt-4o".
Proof.
  assert ("US.gpt-4o"%string <> EmptyString) as Hne by discriminate.
  split; [exact Hne|].
  exact (proj1 (resolution_order ascii_ToLower scan_service [] "US.gpt-4o" Hne)).
Defined.

Lemma cache_pricing_derived_at_construction_witness :
  exists s,
    NewServiceFromData ascii_ToLower (decode_as scan_table)
      ["gpt-4o"; "gpt-4o-mini"]%string "" = Some s /\
    forall key, pricingMap s !! key = ensureCachePricing <$> scan_table !! key.
Proof.
  destruct (cache_pricing_derived_at_construction ascii_ToLower (decode_as scan_table)
              GoFloat.unfused
              ["gpt-4o"; "gpt-4o-mini"]%string "" scan_table eq_refl
              (proj1 scan_table_orders)) as (s & Hs & Hp & _).
  exists s. split; [exact Hs|exact Hp].
Defined.

(** The service is constructed from [sonnet_table]; a five-minute token
    of claude-sonnet-4 costs 0.00000375 and a one-hour token 0.000006.
    For one five-minute and seven one-hour tokens, a program whose
    compiler fuses the second product into the sum of price.go:190 (as on
    arm64) returns the cache-creation cost 4.575e-05, while the rounded
    sum of the two returned costs is 4.575000000000001e-05. For nine
    tokens of each kind both fusions return 8.775e-05 and the rounded sum
    of the two costs is 8.774999999999999e-05. *)
Lemma cache_creation_split_counterexample :
  let s := NewServiceFromData ascii_ToLower (decode_as sonnet_table)
             ["claude-sonnet-4"%string] EmptyString in
  let cost fuse five one :=
    CalculateCost ascii_ToLower (GoFloat.mkFusion fuse GoFloat.Separate false) s [] []
      "claude-sonnet-4"
      (mkUsageSnapshot 0 0 (five + one) 0 (Some (mkCacheCreationDetail five one))) in
  range_order sonnet_table ["claude-sonnet-4"%string] /\
  is_Some s /\
  (let b := cost GoFloat.FuseRight 1 7 in
   Ephemeral5mCost b = (1 * 0.00000375)%float /\
   Ephemeral1hCost b = (7 * 0.000006)%float /\
   CacheCreateCost b = 4.575e-05%float /\
   (Ephemeral5mCost b + Ephemeral1hCost b)%float = 4.575000000000001e-05%float /\
   CacheCreateCost b <> (Ephemeral5mCost b + Ephemeral1hCost b)%float) /\
  (let b := cost GoFloat.FuseLeft 9 9 in
   CacheCreateCost b = 8.775e-05%float /\
   (Ephemeral5mCost b + Ephemeral1hCost b)%float = 8.774999999999999e-05%float /\
   CacheCreateCost b <> (Ephemeral5mCost b + Ephemeral1hCost b)%float) /\
  (let b := cost GoFloat.FuseRight 9 9 in
   CacheCreateCost b = 8.775e-05%float /\
   CacheCreateCost b <> (Ephemeral5mCost b + Ephemeral1hCost b)%float).
Proof.
  intros s cost.
  split; [apply range_orderb_ok; vm_compute; reflexivity|].
  split; [by vm_compute; eexists|].
  repeat split; try (vm_compute; reflexivity);
    intros H; apply (f_equal Prim2SF) in H; vm_compute in H; discriminate.
Qed.

Lemma has_pricing_flag_witness :
  service_wf scan_service /\
  "unknown-model-xyz"%string <> EmptyString /\
  CalculateCost ascii_ToLower GoFloat.unfused (Some scan_service) [] [] "unknown-model-xyz"
    (mkUsageSnapshot 100 50 0 0 None) = zeroCostBreakdown.
Proof.
  assert ("unknown-model-xyz"%string <> EmptyString) as Hne by discriminate.
  split; [exact scan_service_wf|]. split; [exact Hne|].
  destruct (has_pricing_flag ascii_ToLower GoFloat.unfused scan_service [] [] "unknown-model-xyz"
              (mkUsageSnapshot 100 50 0 0 None) scan_service_wf Hne) as (Hzero & _).
  destruct Hzero as [Hb _]; [reflexivity|reflexivity|exact Hb].
Defined.

Lemma resolution_repeatable_witness :
  (getPricing ascii_ToLower scan_service ["gpt-4o"; "gpt-4o-mini"]%string "gpt-4").2 =
  (getPricing ascii_ToLower scan_service ["gpt-4o-mini"; "gpt-4o"]%string "gpt-4").2.
Proof.
  exact (proj1 (resolution_repeatable ascii_ToLower scan_service
                  ["gpt-4o"; "gpt-4o-mini"]%string ["gpt-4o-mini"; "gpt-4o"]%string
                  "gpt-4" (proj1 scan_service_orders) (proj2 scan_service_orders))).
Defined.

(** The service constructed from [scan_table] has the keys gpt-4o and
    gpt-4o-mini, with different entries. The normalized name gpt4 of the
    model gpt-4 is contained in the normalized form of both, and no keyed
    lookup hits, so the scan returns the entry of the key it visits
    first: one entry under one visiting order, the other under the other. *)
Lemma resolution_repeatable_counterexample :
  NewServiceFromData ascii_ToLower (decode_as scan_table)
    ["gpt-4o"; "gpt-4o-mini"]%string "" = Some scan_service /\
  range_order (pricingMap scan_service) ["gpt-4o"; "gpt-4o-mini"]%string /\
  range_order (pricingMap scan_service) ["gpt-4o-mini"; "gpt-4o"]%string /\
  getPricing ascii_ToLower scan_service ["gpt-4o"; "gpt-4o-mini"]%string "gpt-4"
  <> getPricing ascii_ToLower scan_service ["gpt-4o-mini"; "gpt-4o"]%string "gpt-4".
Proof.
  split; [apply scan_service_constructed|].
  split; [apply scan_service_orders|]. split; [apply scan_service_orders|].
  intros H.
  apply (f_equal (fun r : option PricingEntry * bool =>
                    match r.1 with
                    | Some entry => PrimFloat.eqb (InputCostPerToken entry) 0.000003
                    | None => false
                    end)) in H.
  vm_compute in H. discriminate.
Qed.



(** No two keys of [scan_table] share a normalized name, and its two
    constructions are the same service. The model gpt-4 is resolved by
    the scan alone, which matches both keys, so two calls that visit the
    pricing map in different orders price it from different entries; the
    model gpt-4o is resolved by its key and priced the same. *)
Example scan_priced_by_visiting_order :
  let cost ordP model :=
    CalculateCost ascii_ToLower GoFloat.unfused (Some scan_service) ordP [] model
      sample_usage in
  (forall key1 key2,
     is_Some (scan_table !! key1) -> is_Some (scan_table !! key2) ->
     normalizeName ascii_ToLower key1 = normalizeName ascii_ToLower key2 -> key1 = key2) /\
  cost ["gpt-4o"; "gpt-4o-mini"]%string "gpt-4"%string
  <> cost ["gpt-4o-mini"; "gpt-4o"]%string "gpt-4"%string /\
  cost ["gpt-4o"; "gpt-4o-mini"]%string "gpt-4o"%string
  = cost ["gpt-4o-mini"; "gpt-4o"]%string "gpt-4o"%string.
Proof.
  intros cost. split; [|split].
  - intros key1 key2 H1 H2.
    assert (forall key, is_Some (scan_table !! key) ->
                        key = "gpt-4o"%string \/ key = "gpt-4o-mini"%string) as Hkeys.
    { intros key [e He]. unfold scan_table in He. simpl in He.
      apply lookup_insert_Some in He as [[<- _]|[_ He]]; [by left|].
      apply lookup_insert_Some in He as [[<- _]|[_ He]]; [by right|].
      by rewrite lookup_empty in He. }
    destruct (Hkeys key1 H1) as [->| ->], (Hkeys key2 H2) as [->| ->];
      first [done|vm_compute; discriminate].
  - intros H.
    apply (f_equal (fun b => PrimFloat.eqb (InputCost b) 0.003)) in H.
    vm_compute in H. discriminate.
  - vm_compute. reflexivity.
Qed.

(** The name claude-opus-sonnet is not in the one-hour table and contains
    sonnet; it also contains opus, which is tested first, so its rate is
    0.00003. *)
Lemma ephemeral_1h_rate_counterexample :
  ephemeral1h scan_service !! "claude-opus-sonnet"%string = None /\
  Contains (ascii_ToLower "claude-opus-sonnet") "sonnet" = true /\
  getEphemeral1hPricing ascii_ToLower scan_service "claude-opus-sonnet"
  <> 0.000006%float.
Proof.
  split; [by vm_compute|]. split; [reflexivity|]. intros H.
  apply (f_equal (fun x => PrimFloat.eqb x 0.00003)) in H.
  vm_compute in H. discriminate.
Qed.

Lemma tiered_prices_unused_witness :
  let build :=
    NewServiceFromData ascii_ToLower decode_named ["gpt-4o"; "gpt-4o-mini"]%string in
  without_tiers <$> scan_table_tiered = without_tiers <$> scan_table /\
  CalculateCost ascii_ToLower GoFloat.unfused (build "tiered"%string) [] [] "gpt-4o" sample_usage =
  CalculateCost ascii_ToLower GoFloat.unfused (build "plain"%string) [] [] "gpt-4o" sample_usage.
Proof.
  intros build.
  assert (without_tiers <$> scan_table_tiered = without_tiers <$> scan_table) as Hraw
    by (vm_compute; reflexivity).
  split; [exact Hraw|].
  destruct (build "tiered"%string) as [s1|] eqn:H1; [|vm_compute in H1; discriminate].
  destruct (build "plain"%string) as [s2|] eqn:H2; [|vm_compute in H2; discriminate].
  exact (tiered_prices_unused ascii_ToLower decode_named GoFloat.unfused
           ["gpt-4o"; "gpt-4o-mini"]%string "tiered" "plain"
           scan_table_tiered scan_table s1 s2 [] [] "gpt-4o" sample_usage
           eq_refl eq_refl Hraw H1 H2).
Defined.

(** The threshold on the model of the long-context table: 200000 tokens
    are priced at the base rates, 200001 at the rates of the tier. *)
Example long_context_boundary :
  let s := mkService ∅ ∅ buildEphemeral1hPricing buildLongContextPricing in
  let ordL := ["claude-sonnet-4-20250514[1m]"%string] in
  let cost := CalculateCost ascii_ToLower GoFloat.unfused (Some s) [] ordL "claude-sonnet-4-20250514[1m]" in
  IsLongContext (cost (mkUsageSnapshot 100000 1000 60000 40000 None)) = false /\
  IsLongContext (cost (mkUsageSnapshot 100001 1000 60000 40000 None)) = true /\
  InputCost (cost (mkUsageSnapshot 250000 1000 0 0 None)) = 1.5%float.
Proof. repeat split; by vm_compute. Qed.

(** The split of the cache-creation tokens on small counts, and on
    counts at the ends of the range of [int], where the sum wraps. *)
Example resolveCacheTokens_samples :
  resolveCacheTokens (mkUsageSnapshot 0 0 200 0 (Some (mkCacheCreationDetail 100 50)))
  = (150, 50) /\
  resolveCacheTokens (mkUsageSnapshot 0 0 100 0 (Some (mkCacheCreationDetail 100 50)))
  = (100, 50) /\
  resolveCacheTokens (mkUsageSnapshot 0 0 10 0 (Some (mkCacheCreationDetail (-5) (-7))))
  = (17, 0) /\
  resolveCacheTokens
    (mkUsageSnapshot 0 0 0 0 (Some (mkCacheCreationDetail GoInt.max_int GoInt.min_int)))
  = (0, 0).
Proof. repeat split; by vm_compute. Qed.

(** The wrapper on a request function that fails once, and on one that
    always fails. *)
Example RetryableRequest_samples :
  let once := RetryableRequest ascii_ToLower (flaky 1) "p" (O, []) in
  let always := RetryableRequest ascii_ToLower (flaky 9) "p" (O, []) in
  StatusCode <$> once.1.1 = Some 200 /\
  once.2.1 = 2%nat /\
  effects once.2.2 = [EvRequest; EvSleep 2000000000; EvRequest] /\
  StatusCode <$> always.1.1 = Some 503 /\
  always.2.1 = 4%nat /\
  effects always.2.2 =
    [EvRequest; EvSleep 2000000000; EvRequest; EvSleep 2000000000; EvRequest;
     EvSleep 2000000000; EvRequest].
Proof. repeat split; by vm_compute. Qed.

(** ** Instances of the further properties *)

Lemma scan_table_lookup :
  scan_table !! "gpt-4o"%string = Some sample_entry_a.
Proof. by vm_compute. Qed.

Lemma constructed_key_resolves_witness :
  getPricing ascii_ToLower scan_service ["gpt-4o-mini"; "gpt-4o"]%string "gpt-4o"
  = (Some (ensureCachePricing sample_entry_a), true).
Proof.
  assert ("gpt-4o"%string <> EmptyString) as Hne by discriminate.
  exact (constructed_key_resolves ascii_ToLower (decode_as scan_table)
           ["gpt-4o"; "gpt-4o-mini"]%string "" scan_table scan_service
           ["gpt-4o-mini"; "gpt-4o"]%string "gpt-4o" sample_entry_a
           eq_refl (proj1 scan_table_orders) (proj1 scan_service_constructed)
           scan_table_lookup Hne).
Defined.

Lemma constructed_loose_name_resolves_witness :
  (getPricing ascii_ToLower scan_service [] "GPT_4o").2 = true /\
  is_Some (getPricing ascii_ToLower scan_service [] "GPT_4o").1.
Proof.
  assert ("GPT_4o"%string <> EmptyString) as Hne by discriminate.
  assert (is_Some (scan_table !! "gpt-4o"%string)) as Hkey
    by (rewrite scan_table_lookup; by eexists).
  exact (constructed_loose_name_resolves ascii_ToLower (decode_as scan_table)
           ["gpt-4o"; "gpt-4o-mini"]%string "" scan_table scan_service
           [] "gpt-4o" "GPT_4o"
           eq_refl (proj1 scan_table_orders) (proj1 scan_service_constructed)
           Hkey eq_refl Hne).
Defined.

Lemma scan_service_nonempty : pricingMap scan_service <> ∅.
Proof. intros H. apply (f_equal size) in H. vm_compute in H. discriminate. Qed.

Lemma separator_name_resolves_witness :
  (getPricing ascii_ToLower scan_service ["gpt-4o-mini"; "gpt-4o"]%string "-").2 = true.
Proof.
  assert ("-"%string <> EmptyString) as Hne by discriminate.
  exact (proj1 (separator_name_resolves ascii_ToLower scan_service
                  ["gpt-4o-mini"; "gpt-4o"]%string "-" Hne eq_refl
                  (proj2 scan_service_orders) scan_service_nonempty)).
Defined.

Lemma resolveCacheTokens_conserves_witness :
  let usage := mkUsageSnapshot 0 0 200 0 (Some (mkCacheCreationDetail 100 50)) in
  (resolveCacheTokens usage).1 + (resolveCacheTokens usage).2 = Z.max 200 (100 + 50).
Proof.
  intros usage.
  refine (proj1 (resolveCacheTokens_conserves usage (mkCacheCreationDetail 100 50)
                   eq_refl _ _ _)); simpl; lia.
Defined.

Lemma long_context_only_when_marked_witness :
  let s := mkService ∅ ∅ buildEphemeral1hPricing buildLongContextPricing in
  exists s', Some s = Some s' /\
    "m[1M]"%string <> EmptyString /\
    carries_1m ascii_ToLower "m[1M]" = true /\
    200000 < totalInput (mkUsageSnapshot 250000 1000 0 0 None) /\
    longContexts s' <> ∅.
Proof.
  intros s.
  refine (long_context_only_when_marked ascii_ToLower GoFloat.unfused (Some s) []
            ["claude-sonnet-4-20250514[1m]"%string] "m[1M]"
            (mkUsageSnapshot 250000 1000 0 0 None) _).
  by vm_compute.
Defined.

Lemma constructed_long_context_rates_witness :
  let b := CalculateCost ascii_ToLower GoFloat.unfused (Some scan_service) []
             ["claude-sonnet-4-20250514[1m]"%string] "gpt-4o[1M]"
             (mkUsageSnapshot 250000 1000 0 0 None) in
  IsLongContext b = true /\
  InputCost b = (GoInt.to_float64 250000 * 0.000006)%float /\
  OutputCost b = (GoInt.to_float64 1000 * 0.0000225)%float.
Proof.
  assert ("gpt-4o[1M]"%string <> EmptyString) as Hne by discriminate.
  assert (range_order (longContexts scan_service)
            ["claude-sonnet-4-20250514[1m]"%string]) as Hord
    by (apply range_orderb_ok; vm_compute; reflexivity).
  assert (200000 < totalInput (mkUsageSnapshot 250000 1000 0 0 None)) as Hgt
    by (vm_compute; reflexivity).
  exact (constructed_long_context_rates ascii_ToLower (decode_as scan_table)
           GoFloat.unfused
           ["gpt-4o"; "gpt-4o-mini"]%string "" scan_service []
           ["claude-sonnet-4-20250514[1m]"%string] "gpt-4o[1M]"
           (mkUsageSnapshot 250000 1000 0 0 None)
           (proj1 scan_service_constructed) Hord Hne eq_refl Hgt).
Defined.

Lemma RetryableRequest_first_outcome_witness :
  RetryableRequest ascii_ToLower (flaky 0) "p" (O, []) =
    ((flaky 0 O).1, ((flaky 0 O).2, [] ++ [EvRequest])).
Proof.
  exact (RetryableRequest_first_outcome ascii_ToLower (flaky 0) "p" O [] eq_refl).
Defined.

Lemma sample_orders_plain :
  NewServiceFromData ascii_ToLower decode_named ["gpt-4o"; "gpt-4o-mini"]%string "plain"
  = Some scan_service.
Proof. vm_compute. reflexivity. Qed.

Lemma NewServiceWithDynamicUpdate_cache_first_witness :
  (NewServiceWithDynamicUpdate ascii_ToLower decode_named sample_platform
     ["gpt-4o"; "gpt-4o-mini"]%string sample_world).1 = Ok scan_service.
Proof.
  assert (loadFromCache sample_platform sample_world
          = (Ok "plain"%string, (loadFromCache sample_platform sample_world).2)) as Hload
    by reflexivity.
  destruct (NewServiceWithDynamicUpdate_cache_first ascii_ToLower decode_named
              sample_platform ["gpt-4o"; "gpt-4o-mini"]%string sample_world
              "plain" _ Hload) as (Heq & _).
  rewrite Heq. simpl. by rewrite sample_orders_plain.
Defined.

Lemma updatePricingData_failure_keeps_witness :
  let w := running_world offline_env in
  let w' := updatePricingData ascii_ToLower decode_named sample_platform
              ["gpt-4o"; "gpt-4o-mini"]%string w in
  vars w' = vars w /\ cacheFile w' = cacheFile w.
Proof.
  exact (updatePricingData_failure_keeps ascii_ToLower decode_named sample_platform
           ["gpt-4o"; "gpt-4o-mini"]%string (running_world offline_env)
           (or_introl eq_refl)).
Defined.

Lemma updatePricingData_success_swaps_witness :
  let w := mkWorld sample_env None initialVars [] in
  vars (updatePricingData ascii_ToLower decode_named sample_platform
          ["gpt-4o"; "gpt-4o-mini"]%string w)
  = mkVars false (Some scan_service) None 1000000000 None.
Proof.
  exact (updatePricingData_success_swaps ascii_ToLower decode_named sample_platform
           ["gpt-4o"; "gpt-4o-mini"]%string (mkWorld sample_env None initialVars [])
           "plain" scan_service eq_refl sample_orders_plain).
Defined.

Lemma at_most_two_updates_witness :
  let ord := ["gpt-4o"; "gpt-4o-mini"]%string in
  let acts := [ActFire ord; ActFire ord; ActDefaultService ord; ActFire ord; ActFire ord] in
  (updates (trace (run ascii_ToLower decode_named sample_platform acts
                     (startPeriodicUpdate (running_world sample_env))))
   <= updates (trace (running_world sample_env)) + 2)%nat.
Proof.
  intros ord acts.
  exact (at_most_two_updates ascii_ToLower decode_named sample_platform acts
           (running_world sample_env) eq_refl).
Defined.

(** Four firings of the timer start two updates. *)
Example two_updates_reached :
  let ord := ["gpt-4o"; "gpt-4o-mini"]%string in
  let acts := [ActFire ord; ActFire ord; ActFire ord; ActFire ord] in
  updates (trace (run ascii_ToLower decode_named sample_platform acts
                    (startPeriodicUpdate (running_world sample_env)))) = 2%nat.
Proof. by vm_compute. Qed.

Lemma DefaultService_failure_is_permanent_witness :
  let ord := ["gpt-4o"; "gpt-4o-mini"]%string in
  let unparsable := fun _ : string => @None (gmap string PricingEntry) in
  let w1 := (DefaultService ascii_ToLower unparsable sample_platform ord sample_world).2 in
  (DefaultService ascii_ToLower unparsable sample_platform ord
     (run ascii_ToLower unparsable sample_platform [ActFire ord; ActStop] w1)).1
  = (None, Some ErrParse).
Proof.
  intros ord unparsable w1.
  exact (proj1 (DefaultService_failure_is_permanent ascii_ToLower unparsable
                  sample_platform ord sample_world ErrParse [ActFire ord; ActStop] ord
                  eq_refl eq_refl)).
Defined.


(** A stop that comes after the first timer has expired and before its
    callback has made the next timer is undone by the callback: the
    update under way is carried out, the next timer is held in
    [updateTimer], and when it expires a second update follows. *)
Example StopPeriodicUpdate_during_callback :
  let ord := ["gpt-4o"; "gpt-4o-mini"]%string in
  let start := mkRuntime (startPeriodicUpdate (running_world sample_env)) [] in
  let run := moves ascii_ToLower decode_named sample_platform in
  let stopped := run [MoveExpire; MoveStop] start in
  let later := run [MoveCallback 0 ord; MoveCallback 0 ord] stopped in
  let last := run [MoveExpire; MoveCallback 0 ord] later in
  updateTimer (vars (world stopped)) = None /\
  updates (trace (world stopped)) = 0%nat /\
  updateTimer (vars (world later)) = Some (mkTimer updateInterval NextUpdate true) /\
  updates (trace (world later)) = 1%nat /\
  updates (trace (world last)) = 2%nat.
Proof. repeat split; by vm_compute. Qed.

Lemma cache_round_trip_witness :
  let w := mkWorld late_env None initialVars [] in
  let w1 := (saveToCache compacting_platform "pl ain" w).2 in
  cacheFile w1 = Some "1700000000;plain"%string /\
  exists data',
    (loadFromCache compacting_platform w1).1 = Ok data' /\
    lastUpdateTime (vars (loadFromCache compacting_platform w1).2)
    = 1700000000 * 1000000000.
Proof.
  intros w w1. split; [reflexivity|].
  assert (saveToCache compacting_platform "pl ain" w = (Ok tt, w1)) as Hsave
    by reflexivity.
  destruct (cache_round_trip ascii_ToLower decode_spaced compacting_platform
              "pl ain" w w1 Hsave) as (data' & Hdata & _ & Htime & _).
  - intros cacheBytes Hbytes. vm_compute in Hbytes. injection Hbytes as <-.
    exists "plain"%string. split; reflexivity.
  - reflexivity.
  - reflexivity.
  - reflexivity.
  - vm_compute. discriminate.
  - exists data'. split; [exact Hdata|exact Htime].
Defined.
